(** * pdf-highlighter: the overlay geometry of [PDFOverlayApp]

    A shallow embedding of the coordinate conversion, viewport projection,
    JSON ingestion and rectangle store of the PDF overlay component, and the
    properties its specification states about them; then the handlers of the
    editor, the page filter of the render loop and the slider, with further
    properties read off the code.

    - JavaScript numbers are IEEE 754 binary64 values; they are embedded as
      Rocq's primitive [float], whose operations are the same binary64
      operations (round to nearest, ties to even), NaN and the signed zeros
      and infinities included.
    - A function body ends in a completion: it returns a value or throws.
    - The untyped document handed to the parser is a JSON value; reading a
      property, indexing, [??], [?.] and [for ... of] are given their
      JavaScript meaning on such values.
    - What the host supplies (coercion of strings and objects to numbers,
      printing of numbers, [crypto.randomUUID], [JSON.parse]) is a
      parameter. *)

From Stdlib Require Import List String Ascii Bool ZArith Lia DecimalString.
From Stdlib Require DecimalNat DecimalFacts Finite.
From Stdlib Require Import Floats.
Import ListNotations.

Local Open Scope float_scope.

(** ** Numbers *)

Module Num.

(** A JavaScript [number]. *)
Definition number := float.

(** [Math.abs]. *)
Definition Math_abs (a : number) : number := abs a.

(** [-0], told apart from [+0] by the sign of its reciprocal. *)
Definition is_neg_zero (a : number) : bool := is_zero a && get_sign a.
Definition is_pos_zero (a : number) : bool := is_zero a && negb (get_sign a).

(** [Math.min(...args)] as ECMA-262 defines it: start from [+Infinity];
    a [NaN] argument makes the result [NaN]; [-0] is below [+0]. *)
Fixpoint min_loop (lowest : number) (coerced : list number) : number :=
  match coerced with
  | [] => lowest
  | n :: rest =>
      if is_nan n then nan
      else if is_neg_zero n && is_pos_zero lowest then min_loop n rest
      else if n <? lowest then min_loop n rest
      else min_loop lowest rest
  end.
Definition Math_min (args : list number) : number := min_loop infinity args.

(** [Math.max(...args)]: start from [-Infinity]; [+0] is above [-0]. *)
Fixpoint max_loop (highest : number) (coerced : list number) : number :=
  match coerced with
  | [] => highest
  | n :: rest =>
      if is_nan n then nan
      else if is_pos_zero n && is_neg_zero highest then max_loop n rest
      else if highest <? n then max_loop n rest
      else max_loop highest rest
  end.
Definition Math_max (args : list number) : number := max_loop neg_infinity args.

(** The literals [0.001] and [1e-9]: the nearest binary64 values. *)
#[local] Set Warnings "-inexact-float".
Definition milli : number := 0.001.
Definition nano : number := 1e-9.
#[local] Set Warnings "inexact-float".

(** [Number.isFinite]. *)
Definition isFinite (a : number) : bool := is_finite a.

(** A number proper: any value but NaN. *)
Definition aNumber (a : number) : Prop := is_nan a = false.

(** Neither NaN nor infinite, on the decoding of a value. *)
Definition SFfinite (a : spec_float) : bool :=
  match a with
  | S754_zero _ | S754_finite _ _ _ => true
  | _ => false
  end.

(** The order of binary64 values that are not NaN, read off their
    decoding: a class (infinite, finite or zero, with its sign), then the
    exponent, then the mantissa; [<] and [<=] compare these keys
    lexicographically. *)
Definition key (a : spec_float) : Z * Z * Z :=
  match a with
  | S754_zero _ => (0, 0, 0)
  | S754_infinity false => (2, 0, 0)
  | S754_infinity true => (-2, 0, 0)
  | S754_nan => (0, 0, 0)
  | S754_finite false m e => (1, e, Zpos m)
  | S754_finite true m e => (-1, - e, Zneg m)
  end%Z.

Definition lex_le (p q : Z * Z * Z) : Prop :=
  let '(a, b, c) := p in
  let '(a', b', c') := q in
  (a < a' \/ (a = a' /\ (b < b' \/ (b = b' /\ c <= c'))))%Z.

Definition lex_lt (p q : Z * Z * Z) : Prop :=
  let '(a, b, c) := p in
  let '(a', b', c') := q in
  (a < a' \/ (a = a' /\ (b < b' \/ (b = b' /\ c < c'))))%Z.

End Num.
Import Num.

(** ** Completions and untyped values *)

Module JS.

(** What a [throw] carries: the constructor and the message. *)
Inductive error :=
| TypeError (msg : string)
| Error (msg : string).

(** The outcome of running a function body: [return v] or [throw e]. *)
Inductive completion (A : Type) :=
| Normal (a : A)
| Throw (e : error).
Arguments Normal {A} a.
Arguments Throw {A} e.

Definition bind {A B} (c : completion A) (k : A -> completion B) : completion B :=
  match c with
  | Normal a => k a
  | Throw e => Throw e
  end.

(** The values [JSON.parse] builds, and [undefined], which reading a
    missing property gives.  An object is its list of own properties. *)
#[local] Set Warnings "-register-all".
Inductive value :=
| VUndefined
| VNull
| VBool (b : bool)
| VNum (n : number)
| VStr (s : string)
| VArr (elems : list value)
| VObj (props : list (string * value)).
#[local] Set Warnings "register-all".

Definition isNullish (v : value) : bool :=
  match v with
  | VUndefined | VNull => true
  | _ => false
  end.

(** [a ?? b]. *)
Definition coalesce (a b : value) : value := if isNullish a then b else a.

(** [!!v] (ToBoolean). *)
Definition ToBoolean (v : value) : bool :=
  match v with
  | VUndefined | VNull => false
  | VBool b => b
  | VNum n => negb (is_zero n || is_nan n)
  | VStr s => negb (String.eqb s EmptyString)
  | VArr _ | VObj _ => true
  end.

(** [Array.isArray(v)]. *)
Definition isArray (v : value) : bool :=
  match v with
  | VArr _ => true
  | _ => false
  end.

Fixpoint lookup (k : string) (props : list (string * value)) : value :=
  match props with
  | [] => VUndefined
  | (k', v) :: rest => if String.eqb k k' then v else lookup k rest
  end.

(** [v.k] on a value that is not nullish, for a key [k] that no prototype
    defines (every key the program reads is such a key): an own property of
    an object, [undefined] on anything else. *)
Definition ownProperty (v : value) (k : string) : value :=
  match v with
  | VObj props => lookup k props
  | _ => VUndefined
  end.

(** [v?.k]. *)
Definition getOpt (v : value) (k : string) : value :=
  if isNullish v then VUndefined else ownProperty v k.

(** [v.k]: a TypeError on [null] and [undefined]. *)
Definition get (v : value) (k : string) : completion value :=
  if isNullish v then Throw (TypeError "Cannot read properties of null or undefined")
  else Normal (ownProperty v k).

Definition indexKey (i : nat) : string := NilZero.string_of_uint (Nat.to_uint i).

(** [v[i]] on a value that is not nullish: an element of an array, a
    character of a string, the property named by the digits of [i] of an
    object. *)
Definition element (v : value) (i : nat) : value :=
  match v with
  | VArr elems => nth i elems VUndefined
  | VStr s =>
      match String.get i s with
      | Some c => VStr (String c EmptyString)
      | None => VUndefined
      end
  | VObj props => lookup (indexKey i) props
  | _ => VUndefined
  end.

(** [v?.[i]]. *)
Definition indexOpt (v : value) (i : nat) : value :=
  if isNullish v then VUndefined else element v i.

(** [v[i]]. *)
Definition index (v : value) (i : nat) : completion value :=
  if isNullish v then Throw (TypeError "Cannot read properties of null or undefined")
  else Normal (element v i).

(** The values a [for (const item of v)] loop visits: the elements of an
    array, the characters of a string (one-character strings); any other
    value is not iterable. *)
Definition iterate (v : value) : completion (list value) :=
  match v with
  | VArr elems => Normal elems
  | VStr s => Normal (map (fun c => VStr (String c EmptyString)) (list_ascii_of_string s))
  | _ => Throw (TypeError "value is not iterable")
  end.

End JS.
Import JS.

Declare Scope js_scope.
Delimit Scope js_scope with js.
Notation "x <- c ;; k" := (bind c (fun x => k))
  (at level 61, c at next level, right associativity) : js_scope.
Notation "a ?? b" := (coalesce a b) (at level 45, left associativity) : js_scope.

Local Open Scope js_scope.

(** ** Types *)

(** [type RectUnit = "inch" | "ratio" | "pdf"]. *)
Inductive RectUnit := inch | ratio | pdf.

(** [type BBoxRect].  Types are erased when the program runs, and
    [parseUploadedAzureJson] stores in [page] and [label] whatever the
    untyped document holds there, so these fields (and [color], optional
    like [label]) are values; an optional field that is absent reads
    [undefined]. *)
Record BBoxRect := {
  id : string;
  page : value;
  x : number;
  y : number;
  width : number;
  height : number;
  unit : RectUnit;
  label : value;
  color : value
}.

(** [pageSizePts : { width: number; height: number }]; the fields are
    renamed, [width] and [height] being fields of [BBoxRect]. *)
Record PageSize := { pageWidth : number; pageHeight : number }.

(** The result of [rectToPdfPoints]. *)
Record PdfBox := { left : number; bottom : number; right : number; top : number }.

(** [type TestResult], without the [details] string. *)
Record TestResult := { name : string; pass : bool }.

(** The result of [rectToViewport], [{ left, top, width, height }] in the
    source. *)
Record ViewportBox := { vLeft : number; vTop : number; vWidth : number; vHeight : number }.

(** The one operation of a PDF.js viewport the program calls:
    [viewport.convertToViewportPoint(x, y)] returns the pair [[vx, vy]]. *)
Record Viewport := { convertToViewportPoint : number -> number -> number * number }.

(** ** rectToPdfPoints *)

Definition rectToPdfPoints (rect : BBoxRect) (pageSizePts : PageSize) : completion PdfBox :=
  match unit rect with
  | pdf =>
      Normal {| left := x rect;
                bottom := y rect;
                right := x rect + width rect;
                top := y rect + height rect |}
  | inch =>
      let leftInPts := x rect * 72 in
      let topInPts := y rect * 72 in
      let rightInPts := (x rect + width rect) * 72 in
      let bottomInPts := (y rect + height rect) * 72 in
      let h := pageHeight pageSizePts in
      Normal {| left := leftInPts;
                right := rightInPts;
                bottom := h - bottomInPts;
                top := h - topInPts |}
  | ratio =>
      let leftPts := x rect * pageWidth pageSizePts in
      let topPts := y rect * pageHeight pageSizePts in
      let rightPts := (x rect + width rect) * pageWidth pageSizePts in
      let bottomPts := (y rect + height rect) * pageHeight pageSizePts in
      let h := pageHeight pageSizePts in
      Normal {| left := leftPts;
                right := rightPts;
                bottom := h - bottomPts;
                top := h - topPts |}
  end.

(** ** rectToViewport *)

Definition rectToViewport (rect : BBoxRect) (viewport : Viewport) (pageSizePts : PageSize)
  : completion ViewportBox :=
  box <- rectToPdfPoints rect pageSizePts ;;
  let '(vx1, vy1) := convertToViewportPoint viewport (left box) (top box) in
  let '(vx2, vy2) := convertToViewportPoint viewport (right box) (bottom box) in
  let vLeft := Math_min [vx1; vx2] in
  let vTop := Math_min [vy1; vy2] in
  let width := Math_abs (vx2 - vx1) in
  let height := Math_abs (vy2 - vy1) in
  Normal {| vLeft := vLeft; vTop := vTop; vWidth := width; vHeight := height |}.

(** ** The rectangle store *)

(** [Partial<BBoxRect>]: each field of [BBoxRect], present or not. *)
Record Patch := {
  p_id : option string;
  p_page : option value;
  p_x : option number;
  p_y : option number;
  p_width : option number;
  p_height : option number;
  p_unit : option RectUnit;
  p_label : option value;
  p_color : option value
}.

Definition override {A} (old : A) (new : option A) : A :=
  match new with
  | Some a => a
  | None => old
  end.

(** [{ ...r, ...patch }]. *)
Definition spread (r : BBoxRect) (patch : Patch) : BBoxRect :=
  {| id := override (id r) (p_id patch);
     page := override (page r) (p_page patch);
     x := override (x r) (p_x patch);
     y := override (y r) (p_y patch);
     width := override (width r) (p_width patch);
     height := override (height r) (p_height patch);
     unit := override (unit r) (p_unit patch);
     label := override (label r) (p_label patch);
     color := override (color r) (p_color patch) |}.

(** The state [rects] of the component; each handler is the function it
    passes to [setRects]. *)
Definition Store := list BBoxRect.

Definition updateRect (id0 : string) (patch : Patch) (prev : Store) : Store :=
  map (fun r => if String.eqb (id r) id0 then spread r patch else r) prev.

Definition removeRect (id0 : string) (prev : Store) : Store :=
  filter (fun r => negb (String.eqb (id r) id0)) prev.

(** The patches the overlay editor issues, one per input of a rectangle's
    card. *)
Inductive Edit :=
| EditPage (n : number)
| EditUnit (u : RectUnit)
| EditX (n : number)
| EditY (n : number)
| EditWidth (n : number)
| EditHeight (n : number)
| EditLabel (s : string)
| EditColor (s : string).

Definition patchOf (e : Edit) : Patch :=
  match e with
  | EditPage n => {| p_id := None; p_page := Some (VNum n); p_x := None; p_y := None;
                     p_width := None; p_height := None; p_unit := None;
                     p_label := None; p_color := None |}
  | EditUnit u => {| p_id := None; p_page := None; p_x := None; p_y := None;
                     p_width := None; p_height := None; p_unit := Some u;
                     p_label := None; p_color := None |}
  | EditX n => {| p_id := None; p_page := None; p_x := Some n; p_y := None;
                  p_width := None; p_height := None; p_unit := None;
                  p_label := None; p_color := None |}
  | EditY n => {| p_id := None; p_page := None; p_x := None; p_y := Some n;
                  p_width := None; p_height := None; p_unit := None;
                  p_label := None; p_color := None |}
  | EditWidth n => {| p_id := None; p_page := None; p_x := None; p_y := None;
                      p_width := Some n; p_height := None; p_unit := None;
                      p_label := None; p_color := None |}
  | EditHeight n => {| p_id := None; p_page := None; p_x := None; p_y := None;
                       p_width := None; p_height := Some n; p_unit := None;
                       p_label := None; p_color := None |}
  | EditLabel s => {| p_id := None; p_page := None; p_x := None; p_y := None;
                      p_width := None; p_height := None; p_unit := None;
                      p_label := Some (VStr s); p_color := None |}
  | EditColor s => {| p_id := None; p_page := None; p_x := None; p_y := None;
                      p_width := None; p_height := None; p_unit := None;
                      p_label := None; p_color := Some (VStr s) |}
  end.

(** ** Loops over completions *)

(** [for (const item of items) body], threading the variables the body
    assigns; a [throw] in the body leaves the loop. *)
Fixpoint forOf {S : Type} (items : list value) (body : value -> S -> completion S) (s : S)
  : completion S :=
  match items with
  | [] => Normal s
  | item :: rest => s' <- body item s ;; forOf rest body s'
  end.

(** [items.map((it, idx) => f(it, idx))] for a callback that may throw. *)
Fixpoint mapWithIndex {A B : Type} (f : A -> nat -> completion B) (items : list A) (idx : nat)
  : completion (list B) :=
  match items with
  | [] => Normal []
  | it :: rest =>
      b <- f it idx ;;
      bs <- mapWithIndex f rest (S idx) ;;
      Normal (b :: bs)
  end.

(** Evaluating a list of expressions from left to right. *)
Fixpoint sequence {A : Type} (cs : list (completion A)) : completion (list A) :=
  match cs with
  | [] => Normal []
  | c :: rest =>
      a <- c ;;
      l <- sequence rest ;;
      Normal (a :: l)
  end.

(** The elements of [polygonsToRects]'s argument:
    [{ page: number; polygon: number[]; label?: string }].  The function
    tests [!p], so a polygon may be missing. *)
Module Item.
Record t := {
  page : number;
  polygon : option (list number);
  label : option string
}.
End Item.

Definition ofOptional (s : option string) : value :=
  match s with
  | Some s => VStr s
  | None => VUndefined
  end.

(** ** The words of a document

    The document read the way the parser's three loops read it, as plain
    lists: used to say which words the parser visits and which it keeps. *)

(** What a loop over [v] visits; nothing when [v] cannot be iterated. *)
Definition visited (v : value) : list value :=
  match iterate v with
  | Normal items => items
  | Throw _ => []
  end.

Definition iterable (v : value) : bool :=
  match iterate v with
  | Normal _ => true
  | Throw _ => false
  end.

Definition resultsOf (raw : value) : value := getOpt raw "analysisResult" ?? VArr [].
Definition matchesOf (res : value) : value := getOpt res "matchingWords" ?? VArr [].
Definition wordsOf (m : value) : value := getOpt m "words" ?? VArr [].

(** The page of a group: its own [page], else the [page] of its first
    word. *)
Definition groupPage (m : value) : value :=
  getOpt m "page" ?? getOpt (indexOpt (getOpt m "words") 0) "page".

(** Every word of the document, with its group, in document order. *)
Definition wordsIn (raw : value) : list (value * value) :=
  flat_map (fun res =>
    flat_map (fun m => map (pair m) (visited (wordsOf m)))
             (visited (matchesOf res)))
    (visited (resultsOf raw)).

(** A word whose [polygon] is present and is an array. *)
Definition hasArrayPolygon (w : value) : bool := isArray (getOpt w "polygon").

Definition acceptedIn (raw : value) : list (value * value) :=
  filter (fun mw => hasArrayPolygon (snd mw)) (wordsIn raw).

(** What one turn of the innermost loop keeps of the word [w] of the
    group [m]. *)
Definition keeps (m w : value) : list (value * value) :=
  if hasArrayPolygon w then [(m, w)] else [].

(** The [i]-th entry of the polygon of [w]. *)
Definition entry (w : value) (i : nat) : value := element (getOpt w "polygon") i.

(** A value that ToNumber coerces without calling into an object. *)
Definition isPrimitive (v : value) : bool :=
  match v with
  | VArr _ | VObj _ => false
  | _ => true
  end.

(** A polygon of at least eight entries, the first eight of them
    primitive. *)
Definition fullPolygon (w : value) : bool :=
  match getOpt w "polygon" with
  | VArr elems =>
      (8 <=? List.length elems)%nat && forallb isPrimitive (firstn 8 elems)
  | _ => false
  end.

(** A document the parser goes through without a [throw]: each of the three
    nodes it loops over is absent or iterable, and each polygon that is an
    array is a full one. *)
Definition wellShaped (raw : value) : bool :=
  iterable (resultsOf raw) &&
  forallb (fun res =>
    iterable (matchesOf res) &&
    forallb (fun m =>
      iterable (wordsOf m) &&
      forallb (fun w => negb (hasArrayPolygon w) || fullPolygon w)
              (visited (wordsOf m)))
      (visited (matchesOf res)))
    (visited (resultsOf raw)).

(** What the parser has built so far: the array [rects], and how many
    identifiers [crypto.randomUUID] has handed out. *)
Record ParseState := { rects : list BBoxRect; drawn : nat }.

Section Host.

(** The parts of the JavaScript host the program relies on. *)

(** ToNumber on a string (StringToNumber). *)
Variable StringToNumber : string -> number.

(** ToNumber on an array or an object, through ToPrimitive; it throws a
    TypeError on an object whose own [toString] and [valueOf] cannot be
    called. *)
Variable ObjectToNumber : value -> completion number.

(** ToString on a number, as a template literal applies it. *)
Variable NumberToString : number -> string.

(** [randomUUID k] is the identifier that the [k]-th call of
    [crypto.randomUUID()] returns. *)
Variable randomUUID : nat -> string.

Definition ToNumber (v : value) : completion number :=
  match v with
  | VUndefined => Normal nan
  | VNull => Normal 0
  | VBool b => Normal (if b then 1 else 0)
  | VNum n => Normal n
  | VStr s => Normal (StringToNumber s)
  | VArr _ | VObj _ => ObjectToNumber v
  end.

(** [Math.min(...args)] and [Math.max(...args)] on untyped arguments:
    every argument is coerced, in order, before any is compared. *)
Definition minOf (args : list value) : completion number :=
  coerced <- sequence (map ToNumber args) ;;
  Normal (Math_min coerced).

Definition maxOf (args : list value) : completion number :=
  coerced <- sequence (map ToNumber args) ;;
  Normal (Math_max coerced).

(** *** polygonsToRects *)

Definition polygonsToRects (items : list Item.t) (unit0 : RectUnit)
  : completion (list BBoxRect) :=
  mapWithIndex (fun it idx =>
    match Item.polygon it with
    | None => Throw (Error "Polygon must have 4 points (8 values)")
    | Some p =>
        if (List.length p <? 8)%nat
        then Throw (Error "Polygon must have 4 points (8 values)")
        else
          let xs := [nth 0 p nan; nth 2 p nan; nth 4 p nan; nth 6 p nan] in
          let ys := [nth 1 p nan; nth 3 p nan; nth 5 p nan; nth 7 p nan] in
          let minX := Math_min xs in
          let maxX := Math_max xs in
          let minY := Math_min ys in
          let maxY := Math_max ys in
          Normal {| id := ("poly-" ++ NumberToString (Item.page it) ++ "-" ++ indexKey idx)%string;
                    page := VNum (Item.page it);
                    x := minX;
                    y := minY;
                    width := maxX - minX;
                    height := maxY - minY;
                    unit := unit0;
                    label := ofOptional (Item.label it);
                    color := VUndefined |}
    end) items 0.

(** *** runUnitTests *)

(** The test runner of the application; the [details] it prints are left
    out. *)
Definition runUnitTests : completion (list TestResult) :=
  let page0 := {| pageWidth := 612; pageHeight := 792 |} in
  (* 1) inch -> pdf points flip *)
  let r1 := {| id := "t1"; page := VNum 1; unit := inch;
               x := 1; y := 1; width := 2; height := 1;
               label := VUndefined; color := VUndefined |} in
  got1 <- rectToPdfPoints r1 page0 ;;
  let exp1 := {| left := 72; right := 216; bottom := 648; top := 720 |} in
  let pass1 :=
    (Math_abs (left got1 - left exp1) <? milli) &&
    (Math_abs (right got1 - right exp1) <? milli) &&
    (Math_abs (bottom got1 - bottom exp1) <? milli) &&
    (Math_abs (top got1 - top exp1) <? milli) in
  (* 2) ratio -> pdf points flip *)
  let r2 := {| id := "t2"; page := VNum 1; unit := ratio;
               x := 0.5; y := 0.5; width := 0.25; height := 0.25;
               label := VUndefined; color := VUndefined |} in
  got2 <- rectToPdfPoints r2 page0 ;;
  let exp2 := {| left := 306; right := 459; bottom := 198; top := 396 |} in
  let pass2 :=
    (Math_abs (left got2 - left exp2) <? milli) &&
    (Math_abs (right got2 - right exp2) <? milli) &&
    (Math_abs (bottom got2 - bottom exp2) <? milli) &&
    (Math_abs (top got2 - top exp2) <? milli) in
  (* 3) pdf -> passthrough *)
  let r3 := {| id := "t3"; page := VNum 1; unit := pdf;
               x := 10; y := 20; width := 30; height := 40;
               label := VUndefined; color := VUndefined |} in
  got3 <- rectToPdfPoints r3 page0 ;;
  let exp3 := {| left := 10; right := 40; bottom := 20; top := 60 |} in
  let pass3 :=
    (left got3 =? left exp3) && (right got3 =? right exp3) &&
    (bottom got3 =? bottom exp3) && (top got3 =? top exp3) in
  (* 4) polygonsToRects basic *)
  polyRects <- polygonsToRects
    [ {| Item.page := 1; Item.polygon := Some [1; 1; 3; 1; 3; 2; 1; 2]; Item.label := None |};
      {| Item.page := 2; Item.polygon := Some [0; 0; 1; 0; 1; 1; 0; 1]; Item.label := None |} ]
    inch ;;
  let pass4 :=
    (List.length polyRects =? 2)%nat &&
    match polyRects with
    | first :: _ =>
        (Math_abs (x first - 1) <? nano) &&
        (Math_abs (y first - 1) <? nano) &&
        (Math_abs (width first - 2) <? nano) &&
        (Math_abs (height first - 1) <? nano)
    | [] => false
    end in
  Normal [ {| name := "inch→pdf flip"; pass := pass1 |};
           {| name := "ratio→pdf flip"; pass := pass2 |};
           {| name := "pdf passthrough"; pass := pass3 |};
           {| name := "polygons→rects"; pass := pass4 |} ].

(** *** parseUploadedAzureJson *)

(** [w.polygon[i]]. *)
Definition polygonAt (w : value) (i : nat) : completion value :=
  p <- get w "polygon" ;; index p i.

(** The body of the innermost loop, for the word [w] of a group whose
    page is [page0]. *)
Definition wordBody (page0 : value) (w : value) (st : ParseState) : completion ParseState :=
  if negb (ToBoolean (getOpt w "polygon")) then Normal st
  else
    p <- get w "polygon" ;;
    if negb (isArray p) then Normal st
    else
      let id0 := randomUUID (drawn st) in
      wpage <- get w "page" ;;
      let page1 := wpage ?? page0 ?? VNum 1 in
      xArgs <- sequence (map (polygonAt w) [0; 2; 4; 6]%nat) ;;
      x0 <- minOf xArgs ;;
      yArgs <- sequence (map (polygonAt w) [1; 3; 5; 7]%nat) ;;
      y0 <- minOf yArgs ;;
      wMaxArgs <- sequence (map (polygonAt w) [0; 2; 4; 6]%nat) ;;
      wMax <- maxOf wMaxArgs ;;
      wMinArgs <- sequence (map (polygonAt w) [0; 2; 4; 6]%nat) ;;
      wMin <- minOf wMinArgs ;;
      hMaxArgs <- sequence (map (polygonAt w) [1; 3; 5; 7]%nat) ;;
      hMax <- maxOf hMaxArgs ;;
      hMinArgs <- sequence (map (polygonAt w) [1; 3; 5; 7]%nat) ;;
      hMin <- minOf hMinArgs ;;
      name <- get w "name" ;;
      Normal {| rects := rects st ++
                  [ {| id := id0;
                       page := page1;
                       x := x0;
                       y := y0;
                       width := wMax - wMin;
                       height := hMax - hMin;
                       unit := inch;
                       label := name;
                       color := VUndefined |} ];
                drawn := S (drawn st) |}.

(** The body of the loop over [matchingWords]. *)
Definition matchBody (m : value) (st : ParseState) : completion ParseState :=
  let page0 := getOpt m "page" ?? getOpt (indexOpt (getOpt m "words") 0) "page" in
  let words := getOpt m "words" ?? VArr [] in
  ws <- iterate words ;;
  forOf ws (wordBody page0) st.

(** The body of the loop over [analysisResult]. *)
Definition resultBody (res : value) (st : ParseState) : completion ParseState :=
  let mw := getOpt res "matchingWords" ?? VArr [] in
  ms <- iterate mw ;;
  forOf ms matchBody st.

(** [parseUploadedAzureJson(raw)], run when [uuids] identifiers have been
    handed out already. *)
Definition parseUploadedAzureJson (raw : value) (uuids : nat) : completion (list BBoxRect) :=
  let results := getOpt raw "analysisResult" ?? VArr [] in
  rs <- iterate results ;;
  st <- forOf rs resultBody {| rects := []; drawn := uuids |} ;;
  Normal (rects st).

(** *** What the parser emits for a word *)

(** The entries of the polygon of [w] at [indices], coerced to numbers. *)
Definition coerceEntries (w : value) (indices : list nat) : completion (list number) :=
  sequence (map ToNumber (map (entry w) indices)).

(** [r] is a rectangle for the word [w] of a group whose page is [page0]:
    the bounding box of the corners of its polygon, in inches, on the page
    of the word, else of the group, else 1, labelled with the name of the
    word.  (Its [id] is free.) *)
Definition emits (page0 w : value) (r : BBoxRect) : Prop :=
  exists xs ys,
    coerceEntries w [0; 2; 4; 6]%nat = Normal xs
    /\ coerceEntries w [1; 3; 5; 7]%nat = Normal ys
    /\ page r = ownProperty w "page" ?? page0 ?? VNum 1
    /\ x r = Math_min xs
    /\ y r = Math_min ys
    /\ width r = Math_max xs - Math_min xs
    /\ height r = Math_max ys - Math_min ys
    /\ unit r = inch
    /\ label r = ownProperty w "name"
    /\ color r = VUndefined.

(** The same for a word paired with its group. *)
Definition emitsFor (mw : value * value) (r : BBoxRect) : Prop :=
  emits (groupPage (fst mw)) (snd mw) r.

(** The rectangle the loop body builds from the coerced corners, when [k]
    identifiers have been handed out. *)
Definition built (page0 w : value) (k : nat) (xs ys : list number) : BBoxRect :=
  {| id := randomUUID k;
     page := ownProperty w "page" ?? page0 ?? VNum 1;
     x := Math_min xs;
     y := Math_min ys;
     width := Math_max xs - Math_min xs;
     height := Math_max ys - Math_min ys;
     unit := inch;
     label := ownProperty w "name";
     color := VUndefined |}.

End Host.

(** ** Names of the specification *)

(** An item that [polygonsToRects] refuses: its polygon is missing or has
    fewer than eight values. *)
Definition malformed (it : Item.t) : Prop :=
  match Item.polygon it with
  | None => True
  | Some p => (List.length p < 8)%nat
  end.

(** The error the specification calls MalformedPolygon. *)
Definition MalformedPolygon : error := Error "Polygon must have 4 points (8 values)".

(** The factor that takes a top-origin ordinate to points. *)
Definition verticalScale (u : RectUnit) (pageSizePts : PageSize) : number :=
  match u with
  | inch => 72
  | ratio => pageHeight pageSizePts
  | pdf => 1
  end.

(** ** The editor

    The state of the component that the handlers below read and write, and
    what they show the user. *)

(** [r.page === p] for the page counter [p] of the render loop: true on a
    number equal to [p] only. *)
Definition strictEqualsNumber (v : value) (p : number) : bool :=
  match v with
  | VNum n => n =? p
  | _ => false
  end.

(** [rects.filter((r) => r.page === p)], the rectangles drawn over page
    [p]. *)
Definition pageRects (p : number) (rects0 : Store) : Store :=
  filter (fun r => strictEqualsNumber (page r) p) rects0.

(** A page that is a number, and not NaN. *)
Definition numberedPage (v : value) : bool :=
  match v with
  | VNum n => negb (is_nan n)
  | _ => false
  end.

(** [{ ...p, ...q }] on patches. *)
Definition mergePatch (p q : Patch) : Patch :=
  {| p_id := match p_id q with Some a => Some a | None => p_id p end;
     p_page := match p_page q with Some a => Some a | None => p_page p end;
     p_x := match p_x q with Some a => Some a | None => p_x p end;
     p_y := match p_y q with Some a => Some a | None => p_y p end;
     p_width := match p_width q with Some a => Some a | None => p_width p end;
     p_height := match p_height q with Some a => Some a | None => p_height p end;
     p_unit := match p_unit q with Some a => Some a | None => p_unit p end;
     p_label := match p_label q with Some a => Some a | None => p_label p end;
     p_color := match p_color q with Some a => Some a | None => p_color p end |}.

(** The state variables [rects], [unit] and [jsonText], the messages shown
    by [alert] and the errors written by [console.error]. *)
Record Editor := {
  stRects : Store;
  stUnit : RectUnit;
  stJsonText : string;
  stAlerts : list string;
  stConsole : list error
}.

(** The nodes the three loops of the parser iterate: each is absent or
    iterable. *)
Definition nodesIterable (raw : value) : bool :=
  iterable (resultsOf raw) &&
  forallb (fun res =>
    iterable (matchesOf res) &&
    forallb (fun m => iterable (wordsOf m)) (visited (matchesOf res)))
    (visited (resultsOf raw)).


(** Rectangles put in front of what the parser has built. *)
Definition prepend (pre : list BBoxRect) (st : ParseState) : ParseState :=
  {| rects := pre ++ rects st; drawn := drawn st |}.

Definition onNormal {A B} (f : A -> B) (c : completion A) : completion B :=
  match c with
  | Normal a => Normal (f a)
  | Throw e => Throw e
  end.

(** What a step of the parser adds to its state: rectangles at the end,
    each with the next identifier of the generator. *)
Definition extends (randomUUID : nat -> string) (st st' : ParseState) : Prop :=
  exists rs,
    rects st' = rects st ++ rs
    /\ drawn st' = (drawn st + List.length rs)%nat
    /\ map id rs = map randomUUID (seq (drawn st) (List.length rs)).

(** Identifiers that are distinct and were all handed out before the
    [uuids]-th call of the generator. *)
Definition minted (randomUUID : nat -> string) (uuids : nat) (rects0 : Store) : Prop :=
  NoDup (map id rects0)
  /\ forall i, In i (map id rects0) -> exists k, (k < uuids)%nat /\ i = randomUUID k.

(** [slider.tsx]: the share of the track drawn as filled, in percent,
    [((value[0] - min) / (max - min)) * 100]; [value[0]] of an empty array is
    [undefined], which the subtraction turns into NaN. *)
Definition fillPercent (value0 : list number) (min max : number) : number :=
  ((nth 0 value0 nan - min) / (max - min)) * 100.

Section Handlers.

(** [JSON.parse], of the host. *)
Variable JSONparse : string -> completion value.

Variable StringToNumber : string -> number.
Variable ObjectToNumber : value -> completion number.
Variable randomUUID : nat -> string.

(** The rectangle [handleManualAdd] appends, when [uuids] identifiers have
    been handed out. *)
Definition manualRect (unit0 : RectUnit) (uuids : nat) : BBoxRect :=
  {| id := randomUUID uuids; page := VNum 1; x := 1; y := 1;
     width := 1.5; height := 0.5; unit := unit0;
     label := VUndefined; color := VUndefined |}.

Definition handleManualAdd (uuids : nat) (st : Editor) : Editor :=
  {| stRects := stRects st ++ [manualRect (stUnit st) uuids];
     stUnit := stUnit st;
     stJsonText := stJsonText st;
     stAlerts := stAlerts st;
     stConsole := stConsole st |}.

(** The body of the two [try] blocks: parse the text, then the document. *)
Definition parseText (text : string) (uuids : nat) : completion (list BBoxRect) :=
  parsed <- JSONparse text ;;
  parseUploadedAzureJson StringToNumber ObjectToNumber randomUUID parsed uuids.

(** [handleJsonUpload(file)], for a file whose content is [text]. *)
Definition handleJsonUpload (text : string) (uuids : nat) (st : Editor) : Editor :=
  match parseText text uuids with
  | Normal autoRects =>
      {| stRects := stRects st ++ autoRects;
         stUnit := inch;
         stJsonText := text;
         stAlerts := stAlerts st;
         stConsole := stConsole st |}
  | Throw e =>
      {| stRects := stRects st;
         stUnit := stUnit st;
         stJsonText := text;
         stAlerts := stAlerts st ++
                     ["Could not parse JSON. Paste or shape it per the sample."%string];
         stConsole := stConsole st ++ [e] |}
  end.

(** The handler of the button "Import from JSON", which reads the pasted
    text. *)
Definition importFromJson (uuids : nat) (st : Editor) : Editor :=
  match parseText (stJsonText st) uuids with
  | Normal autoRects =>
      {| stRects := stRects st ++ autoRects;
         stUnit := inch;
         stJsonText := stJsonText st;
         stAlerts := stAlerts st;
         stConsole := stConsole st |}
  | Throw e =>
      {| stRects := stRects st;
         stUnit := stUnit st;
         stJsonText := stJsonText st;
         stAlerts := stAlerts st ++ ["Invalid JSON"%string];
         stConsole := stConsole st |}
  end.

End Handlers.

(** ** Sample data *)

Module Sample.

Local Open Scope string_scope.

(** A host to run the samples on.  No sample reaches the two coercions,
    and the one number a sample prints is the page 1. *)
Definition StringToNumber (s : string) : number := nan.
Definition ObjectToNumber (v : value) : completion number := Normal nan.
Definition NumberToString (n : number) : string := "1".
Definition randomUUID (k : nat) : string := "uuid-" ++ indexKey k.

Definition letter : PageSize := {| pageWidth := 612; pageHeight := 792 |}.
Definition flat : PageSize := {| pageWidth := 612; pageHeight := 0 |}.

Definition rectOf (u : RectUnit) (x0 y0 w0 h0 : number) : BBoxRect :=
  {| id := "t"; page := VNum 1; x := x0; y := y0; width := w0; height := h0;
     unit := u; label := VUndefined; color := VUndefined |}.

(** The identity viewport, and one whose transform is degenerate. *)
Definition identityViewport : Viewport :=
  {| convertToViewportPoint := fun px py => (px, py) |}.
Definition brokenViewport : Viewport :=
  {| convertToViewportPoint := fun px py => (nan, nan) |}.

Definition box : value := VArr (map VNum [1; 1; 3; 1; 3; 2; 1; 2]).

Definition word (polygon : value) : value :=
  VObj [("name", VStr "w"); ("polygon", polygon)].

Definition document (groups : list value) : value :=
  VObj [("analysisResult", VArr [VObj [("matchingWords", VArr groups)]])].

(** One word with polygon [[1,1,3,1,3,2,1,2]] on page 1. *)
Definition oneWord : value :=
  document [VObj [("page", VNum 1); ("words", VArr [word box])]].

(** A word whose polygon is [null] beside a word with a full polygon. *)
Definition nullSibling : value :=
  document [VObj [("page", VNum 1); ("words", VArr [word VNull; word box])]].

(** [{ "analysisResult": 5 }]. *)
Definition notIterable : value := VObj [("analysisResult", VNum 5)].

(** A word whose polygon has two entries. *)
Definition shortPolygon : value :=
  document [VObj [("page", VNum 1); ("words", VArr [word (VArr [VNum 1; VNum 2])])]].

(** A group without a page; its first word is on page 5, its second
    word names no page. *)
Definition wordOn5 : value := VObj [("page", VNum 5); ("polygon", box)].
Definition pagelessGroup : value := VObj [("words", VArr [wordOn5; word box])].
Definition pageOfFirstWord : value := document [pagelessGroup].

Definition goodItem : Item.t :=
  {| Item.page := 1; Item.polygon := Some [1; 1; 3; 1; 3; 2; 1; 2]; Item.label := None |}.
Definition shortItem : Item.t :=
  {| Item.page := 2; Item.polygon := Some [0; 0; 1; 0]; Item.label := None |}.

Definition renaming : Patch :=
  {| p_id := Some "b"; p_page := None; p_x := None; p_y := None; p_width := None;
     p_height := None; p_unit := None; p_label := None; p_color := None |}.

(** A host whose [JSON.parse] reads the text ["one"] as [oneWord], the
    text ["bad"] as [notIterable], and throws on any other text. *)
Definition JSONparse (text : string) : completion value :=
  if String.eqb text "one" then Normal oneWord
  else if String.eqb text "bad" then Normal notIterable
  else Throw (Error "Unexpected token").

(** What the parser makes of the word of [oneWord] on page [p] when [k]
    identifiers have been handed out. *)
Definition parsedWord (k : nat) (p : number) : BBoxRect :=
  {| id := randomUUID k; page := VNum p; x := 1; y := 1; width := 2; height := 1;
     unit := inch; label := VStr "w"; color := VUndefined |}.

(** An editor with one rectangle, identifier [uuid-0]. *)
Definition stored : BBoxRect :=
  {| id := "uuid-0"; page := VNum 1; x := 1; y := 1; width := 2; height := 1;
     unit := ratio; label := VUndefined; color := VUndefined |}.
Definition editor : Editor :=
  {| stRects := [stored]; stUnit := ratio; stJsonText := "one";
     stAlerts := []; stConsole := [] |}.

(** A rectangle whose page a document gave as the string ["2"]. *)
Definition onPageString : BBoxRect :=
  {| id := "s"; page := VStr "2"; x := 1; y := 1; width := 2; height := 1;
     unit := inch; label := VUndefined; color := VUndefined |}.

(** A viewport that sends the corner (10, 60) where the identity sends
    (40, 20), and every other point to (10, 60). *)
Definition swappedViewport : Viewport :=
  {| convertToViewportPoint := fun px py => if PrimFloat.eqb px 10 then (40, 20) else (10, 60) |}.

(** Documents with one result each, and the document with both. *)
Definition resultOf (groups : list value) : value := VObj [("matchingWords", VArr groups)].
Definition firstResult : value := resultOf [VObj [("page", VNum 1); ("words", VArr [word box])]].
Definition secondResult : value := resultOf [VObj [("page", VNum 2); ("words", VArr [word box])]].
Definition results (rs : list value) : value := VObj [("analysisResult", VArr rs)].

(** A word whose polygon is [null]. *)
Definition onlyNull : value :=
  document [VObj [("page", VNum 1); ("words", VArr [word VNull])]].

End Sample.

(** * Properties *)

(** ** Binary64 arithmetic *)

Module FloatFacts.

Local Open Scope Z_scope.

Lemma SFcompare_key x y :
  x <> S754_nan -> y <> S754_nan ->
  exists c, SFcompare x y = Some c /\
    (c = Lt <-> lex_lt (key x) (key y)) /\
    (c = Eq <-> key x = key y) /\
    (c = Gt <-> lex_lt (key y) (key x)).
Proof.
  intros Hx Hy.
  destruct x as [sx | sx | | sx mx ex], y as [sy | sy | | sy my ey];
    try congruence; try destruct sx; try destruct sy; cbn [SFcompare key lex_lt];
    try change (Pos.compare_cont Eq mx my) with (Pos.compare mx my);
    (eexists; split; [reflexivity |]);
    try (destruct (Z.compare_spec ex ey), (Pos.compare_spec mx my); cbn [CompOpp]);
    repeat split; intros H'; try discriminate H'; try lia;
    try (inversion H'; subst; lia); try (subst; reflexivity).
Qed.

Lemma lex_le_lt p q : lex_le p q <-> lex_lt p q \/ p = q.
Proof.
  destruct p as [[a b] c], q as [[a' b'] c']; cbn [lex_le lex_lt]; split.
  - intros H. destruct (Z.eq_dec c c') as [-> | Hc].
    + destruct H as [H | [-> [H | [-> _]]]]; auto.
    + left. lia.
  - intros [H | H]; [lia | inversion H; subst; lia].
Qed.

Local Open Scope float_scope.

Lemma is_nan_Prim2SF f : is_nan f = true <-> Prim2SF f = S754_nan.
Proof.
  unfold is_nan. rewrite eqb_spec. unfold SFeqb.
  destruct (Prim2SF f) as [s | s | | s m e]; cbn [SFcompare negb].
  - split; discriminate.
  - destruct s; split; discriminate.
  - split; reflexivity.
  - rewrite Z.compare_refl.
    change (Pos.compare_cont Eq m m) with (Pos.compare m m).
    rewrite Pos.compare_refl. destruct s; split; discriminate.
Qed.

Lemma is_nan_false f : is_nan f = false <-> Prim2SF f <> S754_nan.
Proof.
  rewrite <- is_nan_Prim2SF. destruct (is_nan f); split; congruence.
Qed.

Lemma ltb_key a b :
  is_nan a = false -> is_nan b = false ->
  ((a <? b) = true <-> lex_lt (key (Prim2SF a)) (key (Prim2SF b))).
Proof.
  intros Ha Hb. rewrite ltb_spec. unfold SFltb.
  destruct (SFcompare_key (Prim2SF a) (Prim2SF b)) as (c & -> & HLt & _ & _);
    [now apply is_nan_false | now apply is_nan_false |].
  rewrite <- HLt. destruct c; split; congruence.
Qed.

Lemma leb_key a b :
  is_nan a = false -> is_nan b = false ->
  ((a <=? b) = true <-> lex_le (key (Prim2SF a)) (key (Prim2SF b))).
Proof.
  intros Ha Hb. rewrite leb_spec, lex_le_lt. unfold SFleb.
  destruct (SFcompare_key (Prim2SF a) (Prim2SF b)) as (c & -> & HLt & HEq & _);
    [now apply is_nan_false | now apply is_nan_false |].
  rewrite <- HLt, <- HEq. destruct c; split; intros H; auto; try discriminate;
    destruct H; discriminate.
Qed.

Lemma leb_not_nan a b : (a <=? b) = true -> is_nan a = false /\ is_nan b = false.
Proof.
  rewrite leb_spec, !is_nan_false. unfold SFleb.
  destruct (Prim2SF a), (Prim2SF b); cbn [SFcompare]; try discriminate;
    intros _; split; discriminate.
Qed.

Lemma ltb_not_nan a b : (a <? b) = true -> is_nan a = false /\ is_nan b = false.
Proof.
  rewrite ltb_spec, !is_nan_false. unfold SFltb.
  destruct (Prim2SF a), (Prim2SF b); cbn [SFcompare]; try discriminate;
    intros _; split; discriminate.
Qed.

Lemma leb_refl a : is_nan a = false -> (a <=? a) = true.
Proof.
  intros Ha. apply leb_key; auto. apply lex_le_lt. now right.
Qed.

Lemma leb_trans a b c : (a <=? b) = true -> (b <=? c) = true -> (a <=? c) = true.
Proof.
  intros Hab Hbc.
  destruct (leb_not_nan _ _ Hab) as [Ha Hb], (leb_not_nan _ _ Hbc) as [_ Hc].
  apply leb_key in Hab, Hbc; auto. apply leb_key; auto.
  destruct (key (Prim2SF a)) as [[a1 a2] a3], (key (Prim2SF b)) as [[b1 b2] b3],
    (key (Prim2SF c)) as [[c1 c2] c3]; cbn [lex_le] in *; lia.
Qed.

Lemma ltb_leb a b : (a <? b) = true -> (a <=? b) = true.
Proof.
  intros Hab. destruct (ltb_not_nan _ _ Hab) as [Ha Hb].
  apply ltb_key in Hab; auto. apply leb_key; auto. apply lex_le_lt. now left.
Qed.

Lemma not_ltb_leb a b :
  is_nan a = false -> is_nan b = false -> (a <? b) = false -> (b <=? a) = true.
Proof.
  intros Ha Hb Hab. apply leb_key; auto.
  assert (H : ~ lex_lt (key (Prim2SF a)) (key (Prim2SF b))).
  { intros H. apply ltb_key in H; auto. congruence. }
  destruct (key (Prim2SF a)) as [[a1 a2] a3], (key (Prim2SF b)) as [[b1 b2] b3];
    cbn [lex_le lex_lt] in *; lia.
Qed.

(** Both zeros compare equal. *)
Lemma zeros_leb a b : is_zero a = true -> is_zero b = true -> (a <=? b) = true.
Proof.
  unfold is_zero. rewrite !eqb_spec, leb_spec. unfold SFeqb, SFleb.
  change (Prim2SF zero) with (S754_zero false).
  destruct (Prim2SF a) as [? | [] | | [] ? ?], (Prim2SF b) as [? | [] | | [] ? ?];
    cbn [SFcompare]; congruence.
Qed.

Lemma abs_is_nan d : is_nan (abs d) = is_nan d.
Proof.
  apply eq_true_iff_eq. rewrite !is_nan_Prim2SF, abs_spec.
  destruct (Prim2SF d); cbn [SFabs]; split; congruence.
Qed.

Lemma abs_not_negative d : (abs d <? 0) = false.
Proof.
  rewrite ltb_spec, abs_spec. unfold SFltb.
  change (Prim2SF 0) with (S754_zero false).
  destruct (Prim2SF d); reflexivity.
Qed.

Lemma abs_nonneg d : is_nan d = false -> (0 <=? abs d) = true.
Proof.
  rewrite is_nan_false, leb_spec, abs_spec. unfold SFleb.
  change (Prim2SF 0) with (S754_zero false).
  destruct (Prim2SF d); cbn [SFabs SFcompare]; congruence.
Qed.

Lemma sub_is_nan a b : is_nan a = true \/ is_nan b = true -> is_nan (a - b) = true.
Proof.
  rewrite !is_nan_Prim2SF, sub_spec. unfold SF64sub.
  intros [-> | ->]; [reflexivity | destruct (Prim2SF a); reflexivity].
Qed.

Lemma mul_comm a b : a * b = b * a.
Proof.
  apply Prim2SF_inj. rewrite !mul_spec. unfold SF64mul.
  destruct (Prim2SF a) as [sa | sa | | sa ma ea], (Prim2SF b) as [sb | sb | | sb mb eb];
    cbn [SFmul]; rewrite ?(xorb_comm sa sb), ?(Pos.mul_comm ma mb), ?(Z.add_comm ea eb);
    reflexivity.
Qed.

Lemma is_finite_Prim2SF f : is_finite f = SFfinite (Prim2SF f).
Proof.
  unfold is_finite, is_infinity, is_nan. rewrite !eqb_spec, abs_spec. unfold SFeqb.
  change (Prim2SF infinity) with (S754_infinity false).
  destruct (Prim2SF f) as [s | s | | s m e]; cbn [SFabs SFcompare SFfinite negb orb];
    try reflexivity.
  - now destruct s.
  - rewrite Z.compare_refl.
    change (Pos.compare_cont Eq m m) with (Pos.compare m m).
    rewrite Pos.compare_refl. now destruct s.
Qed.

Lemma abs_is_finite d : is_finite (abs d) = is_finite d.
Proof.
  rewrite !is_finite_Prim2SF, abs_spec. now destruct (Prim2SF d).
Qed.

(** A difference with a non-finite operand is not finite. *)
Lemma sub_not_finite a b :
  is_finite a = false \/ is_finite b = false -> is_finite (a - b) = false.
Proof.
  rewrite !is_finite_Prim2SF, sub_spec. unfold SF64sub.
  destruct (Prim2SF a) as [sa | sa | | sa ma ea], (Prim2SF b) as [sb | sb | | sb mb eb];
    cbn [SFsub SFfinite]; intros [H | H]; try discriminate H; try reflexivity;
    destruct sa, sb; reflexivity.
Qed.

End FloatFacts.
Import FloatFacts.

(** ** Math.min and Math.max *)

Lemma min_loop_nan lowest l :
  Exists (fun a => is_nan a = true) l -> min_loop lowest l = nan.
Proof.
  intros H. revert lowest. induction H as [a l Ha | a l _ IH]; intros lowest; cbn [min_loop].
  - now rewrite Ha.
  - destruct (is_nan a); [reflexivity |].
    destruct (is_neg_zero a && is_pos_zero lowest); [apply IH |].
    destruct (a <? lowest); apply IH.
Qed.

Lemma min_loop_bound l : forall lowest,
  aNumber lowest -> Forall aNumber l ->
  (min_loop lowest l = lowest \/ In (min_loop lowest l) l) /\
  (min_loop lowest l <=? lowest) = true /\
  Forall (fun a => (min_loop lowest l <=? a) = true) l.
Proof.
  induction l as [| n rest IH]; intros lowest Hlow Hl; cbn [min_loop].
  - repeat split; [now left | now apply leb_refl | constructor].
  - inversion Hl as [| ? ? Hn Hrest]; subst. unfold aNumber in Hn. rewrite Hn.
    assert (Hstep : forall lowest',
      aNumber lowest' -> (lowest' = lowest \/ lowest' = n) ->
      (lowest' <=? lowest) = true -> (lowest' <=? n) = true ->
      (min_loop lowest' rest = lowest \/ In (min_loop lowest' rest) (n :: rest)) /\
      (min_loop lowest' rest <=? lowest) = true /\
      Forall (fun a => (min_loop lowest' rest <=? a) = true) (n :: rest)).
    { intros lowest' Hnum Hsrc H1 H2.
      destruct (IH lowest' Hnum Hrest) as (Hin & Hle & Hall). repeat split.
      - destruct Hin as [-> | Hin]; [destruct Hsrc as [-> | ->] |]; cbn [In]; auto.
      - eapply leb_trans; eauto.
      - constructor; [eapply leb_trans; eauto | assumption]. }
    destruct (is_neg_zero n && is_pos_zero lowest) eqn:Hz.
    + apply Hstep; auto using leb_refl.
      apply andb_prop in Hz as [Hz1 Hz2].
      apply andb_prop in Hz1 as [Hz1 _]. apply andb_prop in Hz2 as [Hz2 _].
      now apply zeros_leb.
    + destruct (n <? lowest) eqn:Hlt.
      * apply Hstep; auto using leb_refl, ltb_leb.
      * apply Hstep; auto using leb_refl, not_ltb_leb.
Qed.

Lemma infinity_leb a : (infinity <=? a) = true -> a = infinity.
Proof.
  rewrite leb_spec. intros H. apply Prim2SF_inj.
  change (Prim2SF infinity) with (S754_infinity false) in *.
  unfold SFleb in H. destruct (Prim2SF a) as [? | [] | | [] ? ?]; cbn [SFcompare] in H;
    congruence.
Qed.

(** A NaN among the arguments makes [Math.min] NaN. *)
Lemma Math_min_nan l : Exists (fun a => is_nan a = true) l -> Math_min l = nan.
Proof. apply min_loop_nan. Qed.

(** On numbers, [Math.min] is one of its arguments and is below each. *)
Lemma Math_min_least l :
  Forall aNumber l -> l <> [] ->
  In (Math_min l) l /\ Forall (fun a => (Math_min l <=? a) = true) l.
Proof.
  intros Hl Hne.
  destruct (min_loop_bound l infinity eq_refl Hl) as (Hin & _ & Hall).
  fold (Math_min l) in *. split; [| assumption].
  destruct Hin as [Hinf | Hin]; [| assumption].
  destruct l as [| a rest]; [congruence |].
  inversion Hall as [| ? ? Ha _]; subst. rewrite Hinf in Ha.
  apply infinity_leb in Ha. rewrite Hinf, <- Ha. now left.
Qed.

Lemma max_loop_nan highest l :
  Exists (fun a => is_nan a = true) l -> max_loop highest l = nan.
Proof.
  intros H. revert highest. induction H as [a l Ha | a l _ IH]; intros highest; cbn [max_loop].
  - now rewrite Ha.
  - destruct (is_nan a); [reflexivity |].
    destruct (is_pos_zero a && is_neg_zero highest); [apply IH |].
    destruct (highest <? a); apply IH.
Qed.

Lemma max_loop_bound l : forall highest,
  aNumber highest -> Forall aNumber l ->
  (max_loop highest l = highest \/ In (max_loop highest l) l) /\
  (highest <=? max_loop highest l) = true /\
  Forall (fun a => (a <=? max_loop highest l) = true) l.
Proof.
  induction l as [| n rest IH]; intros highest Hhigh Hl; cbn [max_loop].
  - repeat split; [now left | now apply leb_refl | constructor].
  - inversion Hl as [| ? ? Hn Hrest]; subst. unfold aNumber in Hn. rewrite Hn.
    assert (Hstep : forall highest',
      aNumber highest' -> (highest' = highest \/ highest' = n) ->
      (highest <=? highest') = true -> (n <=? highest') = true ->
      (max_loop highest' rest = highest \/ In (max_loop highest' rest) (n :: rest)) /\
      (highest <=? max_loop highest' rest) = true /\
      Forall (fun a => (a <=? max_loop highest' rest) = true) (n :: rest)).
    { intros highest' Hnum Hsrc H1 H2.
      destruct (IH highest' Hnum Hrest) as (Hin & Hle & Hall). repeat split.
      - destruct Hin as [-> | Hin]; [destruct Hsrc as [-> | ->] |]; cbn [In]; auto.
      - eapply leb_trans; eauto.
      - constructor; [eapply leb_trans; eauto | assumption]. }
    destruct (is_pos_zero n && is_neg_zero highest) eqn:Hz.
    + apply Hstep; auto using leb_refl.
      apply andb_prop in Hz as [Hz1 Hz2].
      apply andb_prop in Hz1 as [Hz1 _]. apply andb_prop in Hz2 as [Hz2 _].
      now apply zeros_leb.
    + destruct (highest <? n) eqn:Hlt.
      * apply Hstep; auto using leb_refl, ltb_leb.
      * apply Hstep; auto using leb_refl, not_ltb_leb.
Qed.

Lemma leb_neg_infinity a : (a <=? neg_infinity) = true -> a = neg_infinity.
Proof.
  rewrite leb_spec. intros H. apply Prim2SF_inj.
  change (Prim2SF neg_infinity) with (S754_infinity true) in *.
  unfold SFleb in H. destruct (Prim2SF a) as [? | [] | | [] ? ?]; cbn [SFcompare] in H;
    congruence.
Qed.

Lemma Math_max_nan l : Exists (fun a => is_nan a = true) l -> Math_max l = nan.
Proof. apply max_loop_nan. Qed.

(** On numbers, [Math.max] is one of its arguments and is above each. *)
Lemma Math_max_greatest l :
  Forall aNumber l -> l <> [] ->
  In (Math_max l) l /\ Forall (fun a => (a <=? Math_max l) = true) l.
Proof.
  intros Hl Hne.
  destruct (max_loop_bound l neg_infinity eq_refl Hl) as (Hin & _ & Hall).
  fold (Math_max l) in *. split; [| assumption].
  destruct Hin as [Hinf | Hin]; [| assumption].
  destruct l as [| a rest]; [congruence |].
  inversion Hall as [| ? ? Ha _]; subst. rewrite Hinf in Ha.
  apply leb_neg_infinity in Ha. rewrite Hinf, <- Ha. now left.
Qed.

(** ** The tests of the application *)

(** The four tests of [runUnitTests] pass. *)
Lemma runUnitTests_pass NumberToString :
  exists results,
    runUnitTests NumberToString = Normal results
    /\ map pass results = [true; true; true; true].
Proof. eexists. split; reflexivity. Qed.

(** ** The space converter *)

(** [rectToPdfPoints] has no [throw]: it returns a box for every rectangle
    and every page size. *)
Lemma rectToPdfPoints_returns rect pageSizePts :
  exists box, rectToPdfPoints rect pageSizePts = Normal box.
Proof.
  unfold rectToPdfPoints. destruct (unit rect); eexists; reflexivity.
Qed.

(** C1. For a rectangle in inches, [rectToPdfPoints] multiplies by 72 and
    flips the vertical axis against the page height: left = 72*x,
    right = 72*(x+width), top = pageSize.height - 72*y and
    bottom = pageSize.height - 72*(y+height); and {x=1, y=1, width=2,
    height=1} on a 612 by 792 page gives {left: 72, right: 216, bottom: 648,
    top: 720}. *)
Theorem inch_to_pdf_points rect pageSizePts :
  unit rect = inch ->
  rectToPdfPoints rect pageSizePts =
    Normal {| left := 72 * x rect;
              right := 72 * (x rect + width rect);
              bottom := pageHeight pageSizePts - 72 * (y rect + height rect);
              top := pageHeight pageSizePts - 72 * y rect |}
  /\ rectToPdfPoints (Sample.rectOf inch 1 1 2 1) Sample.letter =
       Normal {| left := 72; right := 216; bottom := 648; top := 720 |}.
Proof.
  intros Hunit. split; [| reflexivity].
  unfold rectToPdfPoints. rewrite Hunit. cbv zeta.
  now rewrite !(mul_comm 72).
Qed.

Lemma inch_to_pdf_points_witness :
  rectToPdfPoints (Sample.rectOf inch 1 1 2 1) Sample.letter =
    Normal {| left := 72 * 1; right := 72 * (1 + 2);
              bottom := 792 - 72 * (1 + 1); top := 792 - 72 * 1 |}.
Proof.
  exact (proj1 (inch_to_pdf_points (Sample.rectOf inch 1 1 2 1) Sample.letter eq_refl)).
Defined.

(** C2. For a rectangle in ratios, [rectToPdfPoints] scales x and width by
    the page width, y and height by the page height, and then flips the
    vertical axis as for inches; and {x=0.5, y=0.5, width=0.25, height=0.25}
    on a 612 by 792 page gives {left: 306, right: 459, bottom: 198,
    top: 396}. *)
Theorem ratio_to_pdf_points rect pageSizePts :
  unit rect = ratio ->
  rectToPdfPoints rect pageSizePts =
    Normal {| left := x rect * pageWidth pageSizePts;
              right := (x rect + width rect) * pageWidth pageSizePts;
              bottom := pageHeight pageSizePts
                        - (y rect + height rect) * pageHeight pageSizePts;
              top := pageHeight pageSizePts - y rect * pageHeight pageSizePts |}
  /\ rectToPdfPoints (Sample.rectOf ratio 0.5 0.5 0.25 0.25) Sample.letter =
       Normal {| left := 306; right := 459; bottom := 198; top := 396 |}.
Proof.
  intros Hunit. split; [| reflexivity].
  unfold rectToPdfPoints. now rewrite Hunit.
Qed.

Lemma ratio_to_pdf_points_witness :
  rectToPdfPoints (Sample.rectOf ratio 0.5 0.5 0.25 0.25) Sample.letter =
    Normal {| left := 0.5 * 612; right := (0.5 + 0.25) * 612;
              bottom := 792 - (0.5 + 0.25) * 792; top := 792 - 0.5 * 792 |}.
Proof.
  exact (proj1 (ratio_to_pdf_points (Sample.rectOf ratio 0.5 0.5 0.25 0.25)
                                    Sample.letter eq_refl)).
Defined.

(** C3. For a rectangle in PDF points, [rectToPdfPoints] passes the fields
    through without a flip: left = x, bottom = y, right = x + width,
    top = y + height, whatever the page size. *)
Theorem pdf_passthrough rect pageSizePts :
  unit rect = pdf ->
  rectToPdfPoints rect pageSizePts =
    Normal {| left := x rect;
              bottom := y rect;
              right := x rect + width rect;
              top := y rect + height rect |}
  /\ forall otherPage, rectToPdfPoints rect otherPage = rectToPdfPoints rect pageSizePts.
Proof.
  intros Hunit. unfold rectToPdfPoints. rewrite Hunit. split; reflexivity.
Qed.

Lemma pdf_passthrough_witness :
  rectToPdfPoints (Sample.rectOf pdf 10 20 30 40) Sample.letter =
    Normal {| left := 10; bottom := 20; right := 40; top := 60 |}.
Proof.
  exact (proj1 (pdf_passthrough (Sample.rectOf pdf 10 20 30 40) Sample.letter eq_refl)).
Defined.

(** C4, as the specification states it, fails: on a page of height zero
    the converter returns numbers for a rectangle in inches, and no
    error. *)
Lemma zero_height_is_not_rejected :
  rectToPdfPoints (Sample.rectOf inch 1 1 2 1) Sample.flat =
    Normal {| left := 72; right := 216; bottom := -144; top := -72 |}
  /\ ~ (exists e, rectToPdfPoints (Sample.rectOf inch 1 1 2 1) Sample.flat = Throw e).
Proof.
  split; [reflexivity |]. intros [e He]. discriminate He.
Qed.

(** C4, amended. [rectToPdfPoints] does not inspect the page size: for a
    rectangle in inches or ratios on a page of height zero it returns a box
    all the same, flipped against zero: top = 0 - y*s and
    bottom = 0 - (y+height)*s, where s is 72 for inches and the page height
    (zero) for ratios. *)
Theorem zero_height_flips_against_zero rect pageSizePts :
  unit rect <> pdf ->
  pageHeight pageSizePts = 0 ->
  exists box,
    rectToPdfPoints rect pageSizePts = Normal box
    /\ top box = 0 - y rect * verticalScale (unit rect) pageSizePts
    /\ bottom box = 0 - (y rect + height rect) * verticalScale (unit rect) pageSizePts.
Proof.
  intros Hunit Hheight. unfold rectToPdfPoints, verticalScale.
  destruct (unit rect); [| | congruence]; rewrite ?Hheight;
    eexists; repeat split; reflexivity.
Qed.

Lemma zero_height_flips_against_zero_witness :
  exists box,
    rectToPdfPoints (Sample.rectOf inch 1 1 2 1) Sample.flat = Normal box
    /\ top box = 0 - 1 * 72
    /\ bottom box = 0 - (1 + 1) * 72.
Proof.
  apply (zero_height_flips_against_zero (Sample.rectOf inch 1 1 2 1) Sample.flat).
  - discriminate.
  - reflexivity.
Defined.

(** ** The viewport projector *)

(** What [rectToViewport] returns once the two corners are mapped. *)
Lemma rectToViewport_unfold rect viewport pageSizePts box vx1 vy1 vx2 vy2 :
  rectToPdfPoints rect pageSizePts = Normal box ->
  convertToViewportPoint viewport (left box) (top box) = (vx1, vy1) ->
  convertToViewportPoint viewport (right box) (bottom box) = (vx2, vy2) ->
  rectToViewport rect viewport pageSizePts =
    Normal {| vLeft := Math_min [vx1; vx2];
              vTop := Math_min [vy1; vy2];
              vWidth := Math_abs (vx2 - vx1);
              vHeight := Math_abs (vy2 - vy1) |}.
Proof.
  intros Hbox H1 H2. unfold rectToViewport. rewrite Hbox. cbn [bind].
  now rewrite H1, H2.
Qed.

(** C5, as the specification states it, fails: when the transform maps
    the corners to NaN the projector returns a box of NaN, and no error. *)
Lemma non_finite_is_not_rejected :
  rectToViewport (Sample.rectOf inch 1 1 2 1) Sample.brokenViewport Sample.letter =
    Normal {| vLeft := nan; vTop := nan; vWidth := nan; vHeight := nan |}
  /\ ~ (exists e, rectToViewport (Sample.rectOf inch 1 1 2 1) Sample.brokenViewport
                                 Sample.letter = Throw e).
Proof.
  split; [reflexivity |]. intros [e He]. discriminate He.
Qed.

(** C5, amended. [rectToViewport] checks nothing and returns a box for
    every rectangle, page size and transform; when a mapped x-coordinate is
    not finite the width of that box is not finite, and when a mapped
    y-coordinate is not finite its height is not finite; a NaN coordinate
    makes the left (top) edge and the width (height) NaN. *)
Theorem non_finite_passes_through rect viewport pageSizePts :
  exists box out,
    rectToPdfPoints rect pageSizePts = Normal box
    /\ rectToViewport rect viewport pageSizePts = Normal out
    /\ forall vx1 vy1 vx2 vy2,
         convertToViewportPoint viewport (left box) (top box) = (vx1, vy1) ->
         convertToViewportPoint viewport (right box) (bottom box) = (vx2, vy2) ->
         (isFinite vx1 = false \/ isFinite vx2 = false -> isFinite (vWidth out) = false)
         /\ (isFinite vy1 = false \/ isFinite vy2 = false -> isFinite (vHeight out) = false)
         /\ (is_nan vx1 = true \/ is_nan vx2 = true ->
             vLeft out = nan /\ is_nan (vWidth out) = true)
         /\ (is_nan vy1 = true \/ is_nan vy2 = true ->
             vTop out = nan /\ is_nan (vHeight out) = true).
Proof.
  destruct (rectToPdfPoints_returns rect pageSizePts) as [box Hbox].
  destruct (convertToViewportPoint viewport (left box) (top box)) as [vx1 vy1] eqn:H1.
  destruct (convertToViewportPoint viewport (right box) (bottom box)) as [vx2 vy2] eqn:H2.
  exists box. eexists. split; [exact Hbox |].
  split; [exact (rectToViewport_unfold _ _ _ _ _ _ _ _ Hbox H1 H2) |].
  intros a1 b1 a2 b2 E1 E2. rewrite H1 in E1. rewrite H2 in E2.
  injection E1 as <- <-. injection E2 as <- <-.
  cbn [vLeft vTop vWidth vHeight]. unfold isFinite, Math_abs.
  rewrite !abs_is_finite, !abs_is_nan.
  do 2 (split; [intros H; apply sub_not_finite; tauto |]).
  split; intros H;
    (split; [apply Math_min_nan; destruct H; auto using Exists_cons_hd, Exists_cons_tl
            | apply sub_is_nan; tauto]).
Qed.

Lemma non_finite_passes_through_witness :
  exists box out,
    rectToPdfPoints (Sample.rectOf inch 1 1 2 1) Sample.letter = Normal box
    /\ rectToViewport (Sample.rectOf inch 1 1 2 1) Sample.brokenViewport Sample.letter
       = Normal out
    /\ isFinite (vWidth out) = false
    /\ isFinite (vHeight out) = false.
Proof.
  destruct (non_finite_passes_through (Sample.rectOf inch 1 1 2 1) Sample.brokenViewport
              Sample.letter) as (box & out & Hbox & Hout & Hcorners).
  exists box, out. split; [exact Hbox |]. split; [exact Hout |].
  destruct (Hcorners nan nan nan nan eq_refl eq_refl) as (Hw & Hh & _).
  split; [apply Hw | apply Hh]; left; reflexivity.
Defined.

(** C6, as the specification states it, fails: the width and the height
    are not always non-negative; when the transform maps the corners to NaN
    they are NaN, which is not at least zero. *)
Lemma nan_extent_is_not_non_negative :
  exists out,
    rectToViewport (Sample.rectOf inch 1 1 2 1) Sample.brokenViewport Sample.letter
      = Normal out
    /\ (0 <=? vWidth out) = false
    /\ (0 <=? vHeight out) = false.
Proof.
  eexists. split; [reflexivity |]. split; reflexivity.
Qed.

(** C6, amended. [rectToViewport] maps the corners (left, top) and
    (right, bottom) through the transform, each on its own, and returns
    left = Math.min of the mapped x's, top = Math.min of the mapped y's,
    width = |difference of the mapped x's| and height = |difference of the
    mapped y's|.  The width and the height are never negative, and are at
    least zero whenever the difference they come from is a number (not
    NaN); left and top are then the smaller of the two mapped
    coordinates. *)
Theorem viewport_bounding_box rect viewport pageSizePts :
  exists box,
    rectToPdfPoints rect pageSizePts = Normal box
    /\ forall vx1 vy1 vx2 vy2,
         convertToViewportPoint viewport (left box) (top box) = (vx1, vy1) ->
         convertToViewportPoint viewport (right box) (bottom box) = (vx2, vy2) ->
         exists out,
           rectToViewport rect viewport pageSizePts = Normal out
           /\ vLeft out = Math_min [vx1; vx2]
           /\ vTop out = Math_min [vy1; vy2]
           /\ vWidth out = Math_abs (vx2 - vx1)
           /\ vHeight out = Math_abs (vy2 - vy1)
           /\ (vWidth out <? 0) = false
           /\ (vHeight out <? 0) = false
           /\ (aNumber (vx2 - vx1) -> (0 <=? vWidth out) = true)
           /\ (aNumber (vy2 - vy1) -> (0 <=? vHeight out) = true)
           /\ (aNumber vx1 -> aNumber vx2 ->
               (vLeft out = vx1 \/ vLeft out = vx2)
               /\ (vLeft out <=? vx1) = true /\ (vLeft out <=? vx2) = true)
           /\ (aNumber vy1 -> aNumber vy2 ->
               (vTop out = vy1 \/ vTop out = vy2)
               /\ (vTop out <=? vy1) = true /\ (vTop out <=? vy2) = true).
Proof.
  destruct (rectToPdfPoints_returns rect pageSizePts) as [box Hbox].
  exists box. split; [exact Hbox |]. intros vx1 vy1 vx2 vy2 H1 H2.
  eexists. split; [exact (rectToViewport_unfold _ _ _ _ _ _ _ _ Hbox H1 H2) |].
  cbn [vLeft vTop vWidth vHeight]. unfold Math_abs.
  assert (Hmin : forall a b, aNumber a -> aNumber b ->
            (Math_min [a; b] = a \/ Math_min [a; b] = b)
            /\ (Math_min [a; b] <=? a) = true /\ (Math_min [a; b] <=? b) = true).
  { intros a b Ha Hb.
    destruct (Math_min_least [a; b]) as [Hin Hall]; [now repeat constructor | discriminate |].
    inversion Hall as [| ? ? Hle1 Hall']; subst. inversion Hall' as [| ? ? Hle2 _]; subst.
    repeat split; auto. cbn [In] in Hin. intuition auto. }
  repeat split; auto using abs_not_negative, abs_nonneg; now apply Hmin.
Qed.

Lemma viewport_bounding_box_witness :
  exists box,
    rectToPdfPoints (Sample.rectOf pdf 10 20 30 40) Sample.letter = Normal box
    /\ exists out,
         rectToViewport (Sample.rectOf pdf 10 20 30 40) Sample.identityViewport Sample.letter
           = Normal out
         /\ vLeft out = 10 /\ vTop out = 20 /\ vWidth out = 30 /\ vHeight out = 40
         /\ (0 <=? vWidth out) = true /\ (0 <=? vHeight out) = true.
Proof.
  destruct (viewport_bounding_box (Sample.rectOf pdf 10 20 30 40) Sample.identityViewport
              Sample.letter) as (box & Hbox & Hcorners).
  exists box. split; [exact Hbox |].
  injection Hbox as <-.
  destruct (Hcorners 10 60 40 20 eq_refl eq_refl)
    as (out & Hout & Hl & Ht & Hw & Hh & _ & _ & Hw0 & Hh0 & _).
  exists out. repeat split; try assumption.
  - now apply Hw0.
  - now apply Hh0.
Defined.

(** ** polygonsToRects *)

Section PolygonsToRects.

Variable NumberToString : number -> string.

Lemma mapWithIndex_length {A B} (f : A -> nat -> completion B) items : forall idx out,
  mapWithIndex f items idx = Normal out -> List.length out = List.length items.
Proof.
  induction items as [| it rest IH]; intros idx out; cbn [mapWithIndex bind].
  - intros [= <-]. reflexivity.
  - destruct (f it idx) as [b | e]; cbn [bind]; [| discriminate].
    destruct (mapWithIndex f rest (S idx)) as [bs | e] eqn:Hrest; cbn [bind]; [| discriminate].
    intros [= <-]. cbn [List.length]. f_equal. eapply IH; eassumption.
Qed.

Lemma mapWithIndex_returns {A B} (f : A -> nat -> completion B) items :
  (forall it idx, In it items -> exists b, f it idx = Normal b) ->
  forall idx, exists out, mapWithIndex f items idx = Normal out.
Proof.
  induction items as [| it rest IH]; intros Hf idx; cbn [mapWithIndex].
  - now exists [].
  - destruct (Hf it idx) as [b ->]; [now left |]. cbn [bind].
    destruct (IH (fun it' idx' Hin => Hf it' idx' (or_intror Hin)) (S idx)) as [bs ->].
    cbn [bind]. now exists (b :: bs).
Qed.

(** On items that all carry eight values or more, [polygonsToRects]
    returns one rectangle for each. *)
Lemma polygonsToRects_accepts items unit0 :
  Forall (fun it => ~ malformed it) items ->
  exists out,
    polygonsToRects NumberToString items unit0 = Normal out
    /\ List.length out = List.length items.
Proof.
  intros Hgood. unfold polygonsToRects.
  match goal with |- context [mapWithIndex ?f _ _] => set (convert := f) end.
  destruct (mapWithIndex_returns convert items) with (idx := 0%nat) as [out Hout];
    [| exists out; split; [exact Hout | exact (mapWithIndex_length _ _ _ _ Hout)]].
  subst convert. intros it idx Hin. rewrite Forall_forall in Hgood. specialize (Hgood it Hin).
  unfold malformed in Hgood. destruct (Item.polygon it) as [p |]; [| tauto].
  destruct (List.length p <? 8)%nat eqn:Hlen; [| eexists; reflexivity].
  apply Nat.ltb_lt in Hlen. tauto.
Qed.

(** A callback that throws at some element makes [map] throw; when the
    callback has one error only, that is the error thrown. *)
Lemma mapWithIndex_throws {A B} (f : A -> nat -> completion B) items it e :
  In it items ->
  (forall idx, f it idx = Throw e) ->
  (forall it' idx e', f it' idx = Throw e' -> e' = e) ->
  forall idx, mapWithIndex f items idx = Throw e.
Proof.
  intros Hin Hit Honly.
  induction items as [| it' rest IH]; intros idx; [destruct Hin |].
  cbn [mapWithIndex]. destruct Hin as [-> | Hin].
  - now rewrite Hit.
  - destruct (f it' idx) as [b | e'] eqn:Hf; cbn [bind].
    + now rewrite (IH Hin (S idx)).
    + now rewrite (Honly _ _ _ Hf).
Qed.

(** C9. Called with an item whose polygon is missing or has fewer than
    eight values, [polygonsToRects] throws
    [Error("Polygon must have 4 points (8 values)")]: the error leaves the
    function, and no list of rectangles is returned. *)
Theorem polygonsToRects_rejects_malformed items unit0 it :
  In it items ->
  malformed it ->
  polygonsToRects NumberToString items unit0 = Throw MalformedPolygon
  /\ forall out, polygonsToRects NumberToString items unit0 <> Normal out.
Proof.
  intros Hin Hbad.
  assert (H : polygonsToRects NumberToString items unit0 = Throw MalformedPolygon);
    [| split; [exact H | intros out; rewrite H; discriminate]].
  unfold polygonsToRects. apply mapWithIndex_throws with (it := it); [exact Hin | |].
  - intros idx. unfold malformed in Hbad.
    destruct (Item.polygon it) as [p |]; [| reflexivity].
    apply Nat.ltb_lt in Hbad. now rewrite Hbad.
  - intros it' idx e'.
    destruct (Item.polygon it') as [p |]; [| now intros [= <-]].
    destruct (List.length p <? 8)%nat; [now intros [= <-] | discriminate].
Qed.

End PolygonsToRects.

Lemma polygonsToRects_rejects_malformed_witness :
  polygonsToRects Sample.NumberToString [Sample.goodItem; Sample.shortItem] inch
    = Throw MalformedPolygon
  /\ forall out,
       polygonsToRects Sample.NumberToString [Sample.goodItem; Sample.shortItem] inch
         <> Normal out.
Proof.
  apply (polygonsToRects_rejects_malformed Sample.NumberToString
           [Sample.goodItem; Sample.shortItem] inch Sample.shortItem).
  - right. left. reflexivity.
  - unfold malformed. cbn. lia.
Defined.


(** ** The ingestion parser *)

Lemma forOf_returns {S : Type} (body : value -> S -> completion S) items :
  (forall item s, In item items -> exists s', body item s = Normal s') ->
  forall s, exists s', forOf items body s = Normal s'.
Proof.
  induction items as [| item rest IH]; intros Hbody s; cbn [forOf].
  - now exists s.
  - destruct (Hbody item s) as [s1 ->]; [now left |]. cbn [bind].
    apply IH. intros item' s' Hin. apply Hbody. now right.
Qed.

(** A loop whose body appends, for each item, rectangles related to what
    the item holds appends rectangles related to what the items hold. *)
Lemma forOf_appends {X : Type} (R : X -> BBoxRect -> Prop) (holds : value -> list X)
    (body : value -> ParseState -> completion ParseState) items :
  (forall item st st', body item st = Normal st' ->
     exists rs, rects st' = rects st ++ rs /\ Forall2 R (holds item) rs) ->
  forall st st', forOf items body st = Normal st' ->
    exists rs, rects st' = rects st ++ rs /\ Forall2 R (flat_map holds items) rs.
Proof.
  intros Hbody. induction items as [| item rest IH]; intros st st'; cbn [forOf flat_map].
  - intros [= <-]. exists []. split; [now rewrite app_nil_r | constructor].
  - destruct (body item st) as [st1 | e] eqn:Hitem; cbn [bind]; [| discriminate].
    intros Hrest.
    destruct (Hbody _ _ _ Hitem) as (rs1 & Hrs1 & HR1).
    destruct (IH _ _ Hrest) as (rs2 & Hrs2 & HR2).
    exists (rs1 ++ rs2). split.
    + now rewrite Hrs2, Hrs1, app_assoc.
    + now apply Forall2_app.
Qed.

Lemma hasArrayPolygon_object w :
  hasArrayPolygon w = true ->
  exists props elems, w = VObj props /\ lookup "polygon" props = VArr elems.
Proof.
  unfold hasArrayPolygon, getOpt, ownProperty.
  destruct w as [| | b | n | s | elems | props]; cbn [isNullish isArray]; try discriminate.
  destruct (lookup "polygon" props) as [| | b | n | s | elems |] eqn:Hp; cbn [isArray];
    try discriminate.
  intros _. now exists props, elems.
Qed.

Lemma filter_flat_map {A B} (f : B -> bool) (g : A -> list B) l :
  filter f (flat_map g l) = flat_map (fun a => filter f (g a)) l.
Proof.
  induction l as [| a l IH]; cbn [flat_map filter]; [reflexivity |].
  now rewrite filter_app, IH.
Qed.

Lemma acceptedIn_loops raw :
  acceptedIn raw =
    flat_map (fun res =>
      flat_map (fun m => flat_map (keeps m) (visited (wordsOf m)))
               (visited (matchesOf res)))
      (visited (resultsOf raw)).
Proof.
  unfold acceptedIn, wordsIn. rewrite filter_flat_map.
  apply flat_map_ext. intros res. rewrite filter_flat_map.
  apply flat_map_ext. intros m.
  induction (visited (wordsOf m)) as [| w ws IH]; cbn [map filter flat_map snd];
    [reflexivity |].
  unfold keeps at 1. rewrite IH. now destruct (hasArrayPolygon w).
Qed.

Section Parser.

Variable StringToNumber : string -> number.
Variable ObjectToNumber : value -> completion number.
Variable randomUUID : nat -> string.

Local Abbreviation coerce := (ToNumber StringToNumber ObjectToNumber).
Local Abbreviation coerced := (coerceEntries StringToNumber ObjectToNumber).
Local Abbreviation wordStep := (wordBody StringToNumber ObjectToNumber randomUUID).
Local Abbreviation matchStep := (matchBody StringToNumber ObjectToNumber randomUUID).
Local Abbreviation resultStep := (resultBody StringToNumber ObjectToNumber randomUUID).
Local Abbreviation parse :=
  (parseUploadedAzureJson StringToNumber ObjectToNumber randomUUID).

Local Abbreviation build := (built randomUUID).
Local Abbreviation emittedFor := (emitsFor StringToNumber ObjectToNumber).

(** A word without an array polygon is passed over. *)
Lemma wordBody_skips page0 w st :
  hasArrayPolygon w = false -> wordStep page0 w st = Normal st.
Proof.
  unfold hasArrayPolygon, wordBody, getOpt, get. intros Hskip.
  destruct (isNullish w); [reflexivity |].
  destruct (ToBoolean (ownProperty w "polygon")); [| reflexivity].
  cbn [negb bind]. now rewrite Hskip.
Qed.

Lemma sequence_polygonAt props elems indices :
  lookup "polygon" props = VArr elems ->
  sequence (map (polygonAt (VObj props)) indices)
    = Normal (map (entry (VObj props)) indices).
Proof.
  intros Hp. induction indices as [| i rest IH]; cbn [map sequence]; [reflexivity |].
  rewrite IH. unfold polygonAt, entry, get, getOpt, index, ownProperty.
  cbn [isNullish bind]. now rewrite Hp.
Qed.

(** A word with an array polygon: the corners are coerced, the x's
    first, and a rectangle is pushed. *)
Lemma wordBody_keeps page0 w st :
  hasArrayPolygon w = true ->
  wordStep page0 w st =
    (xs <- coerced w [0; 2; 4; 6]%nat ;;
     ys <- coerced w [1; 3; 5; 7]%nat ;;
     Normal {| rects := rects st ++ [build page0 w (drawn st) xs ys];
               drawn := S (drawn st) |}).
Proof.
  intros Hkeep.
  destruct (hasArrayPolygon_object _ Hkeep) as (props & elems & -> & Hp).
  unfold wordBody, coerceEntries, minOf, maxOf.
  rewrite !(sequence_polygonAt _ _ _ Hp).
  unfold getOpt, get, ownProperty. cbn [isNullish]. rewrite Hp. cbn [ToBoolean isArray negb bind].
  destruct (sequence (map coerce (map (entry (VObj props)) [0; 2; 4; 6]%nat)))
    as [xs | e]; cbn [bind]; [| reflexivity].
  destruct (sequence (map coerce (map (entry (VObj props)) [1; 3; 5; 7]%nat)))
    as [ys | e]; cbn [bind]; reflexivity.
Qed.

Lemma wordStep_appends m w st st' :
  wordStep (groupPage m) w st = Normal st' ->
  exists rs, rects st' = rects st ++ rs /\ Forall2 emittedFor (keeps m w) rs.
Proof.
  unfold keeps. destruct (hasArrayPolygon w) eqn:Hw.
  - rewrite (wordBody_keeps _ _ _ Hw).
    destruct (coerced w [0; 2; 4; 6]%nat) as [xs | e] eqn:Hxs; cbn [bind]; [| discriminate].
    destruct (coerced w [1; 3; 5; 7]%nat) as [ys | e] eqn:Hys; cbn [bind]; [| discriminate].
    intros [= <-]. eexists. split; [reflexivity |].
    repeat constructor. exists xs, ys. cbn [fst snd]. repeat split; assumption.
  - rewrite (wordBody_skips _ _ _ Hw). intros [= <-].
    exists []. split; [now rewrite app_nil_r | constructor].
Qed.

Lemma iterate_visited v items : iterate v = Normal items -> visited v = items.
Proof. unfold visited. now intros ->. Qed.

Lemma iterable_visited v : iterable v = true -> iterate v = Normal (visited v).
Proof. unfold iterable, visited. now destruct (iterate v). Qed.

Lemma matchStep_appends m st st' :
  matchStep m st = Normal st' ->
  exists rs, rects st' = rects st ++ rs
    /\ Forall2 emittedFor (flat_map (keeps m) (visited (wordsOf m))) rs.
Proof.
  unfold matchBody. fold (wordsOf m) (groupPage m).
  destruct (iterate (wordsOf m)) as [ws | e] eqn:Hws; cbn [bind]; [| discriminate].
  rewrite (iterate_visited _ _ Hws).
  apply forOf_appends. intros w. apply wordStep_appends.
Qed.

Lemma resultStep_appends res st st' :
  resultStep res st = Normal st' ->
  exists rs, rects st' = rects st ++ rs
    /\ Forall2 emittedFor
         (flat_map (fun m => flat_map (keeps m) (visited (wordsOf m)))
                   (visited (matchesOf res))) rs.
Proof.
  unfold resultBody. fold (matchesOf res).
  destruct (iterate (matchesOf res)) as [ms | e] eqn:Hms; cbn [bind]; [| discriminate].
  rewrite (iterate_visited _ _ Hms).
  apply forOf_appends. intros m. apply matchStep_appends.
Qed.

(** What the parser returns, when it returns: one rectangle for each
    word whose polygon is an array, in the order of the document. *)
Lemma parse_emits raw uuids out :
  parse raw uuids = Normal out -> Forall2 emittedFor (acceptedIn raw) out.
Proof.
  unfold parseUploadedAzureJson. fold (resultsOf raw). rewrite acceptedIn_loops.
  destruct (iterate (resultsOf raw)) as [rs | e] eqn:Hrs; cbn [bind]; [| discriminate].
  rewrite (iterate_visited _ _ Hrs).
  destruct (forOf rs resultStep _) as [st' | e] eqn:Hloop; cbn [bind]; [| discriminate].
  intros [= <-].
  destruct (forOf_appends emittedFor _ _ rs resultStep_appends _ _ Hloop) as (out & -> & H).
  exact H.
Qed.

Lemma coerce_primitive v : isPrimitive v = true -> exists n, coerce v = Normal n.
Proof.
  destruct v; cbn [isPrimitive ToNumber]; try discriminate; intros _; eexists; reflexivity.
Qed.

Lemma sequence_returns {A} (cs : list (completion A)) :
  Forall (fun c => exists a, c = Normal a) cs -> exists l, sequence cs = Normal l.
Proof.
  induction 1 as [| c cs [a ->] _ [l IH]]; cbn [sequence bind].
  - now exists [].
  - rewrite IH. cbn [bind]. now exists (a :: l).
Qed.

Lemma fullPolygon_entries w i :
  fullPolygon w = true -> (i < 8)%nat -> isPrimitive (entry w i) = true.
Proof.
  unfold fullPolygon, entry. destruct (getOpt w "polygon") as [| | | | | elems |];
    try discriminate.
  intros H Hi. apply andb_prop in H as [Hlen Hprim]. apply Nat.leb_le in Hlen.
  cbn [element]. rewrite forallb_forall in Hprim. apply Hprim.
  rewrite <- (firstn_skipn 8 elems) at 1.
  rewrite app_nth1 by (rewrite length_firstn; lia).
  apply nth_In. rewrite length_firstn. lia.
Qed.

Lemma coerced_returns w indices :
  fullPolygon w = true -> Forall (fun i => (i < 8)%nat) indices ->
  exists ns, coerced w indices = Normal ns.
Proof.
  intros Hw Hi. unfold coerceEntries. apply sequence_returns.
  rewrite !Forall_map. revert Hi. apply Forall_impl. intros i Hi.
  apply coerce_primitive. now apply fullPolygon_entries.
Qed.

Lemma wordStep_returns page0 w st :
  negb (hasArrayPolygon w) || fullPolygon w = true ->
  exists st', wordStep page0 w st = Normal st'.
Proof.
  intros H. destruct (hasArrayPolygon w) eqn:Hw.
  - cbn [negb orb] in H. rewrite (wordBody_keeps _ _ _ Hw).
    destruct (coerced_returns w [0; 2; 4; 6]%nat H) as [xs ->];
      [repeat constructor; lia |].
    destruct (coerced_returns w [1; 3; 5; 7]%nat H) as [ys ->];
      [repeat constructor; lia |].
    cbn [bind]. eexists; reflexivity.
  - rewrite (wordBody_skips _ _ _ Hw). now exists st.
Qed.

(** The parser returns on a well-shaped document. *)
Lemma parse_returns raw uuids :
  wellShaped raw = true -> exists out, parse raw uuids = Normal out.
Proof.
  unfold wellShaped, parseUploadedAzureJson. fold (resultsOf raw).
  intros H. apply andb_prop in H as [Hrs Hall].
  rewrite (iterable_visited _ Hrs). cbn [bind]. rewrite forallb_forall in Hall.
  edestruct (forOf_returns resultStep (visited (resultsOf raw))) as [st' ->];
    [| cbn [bind]; eexists; reflexivity].
  intros res st Hres. apply Hall in Hres. apply andb_prop in Hres as [Hms Hres].
  unfold resultBody. fold (matchesOf res).
  rewrite (iterable_visited _ Hms). cbn [bind]. rewrite forallb_forall in Hres.
  apply forOf_returns. intros m st1 Hm. apply Hres in Hm.
  apply andb_prop in Hm as [Hws Hm].
  unfold matchBody. fold (wordsOf m).
  rewrite (iterable_visited _ Hws). cbn [bind]. rewrite forallb_forall in Hm.
  apply forOf_returns. intros w st2 Hw. apply wordStep_returns. now apply Hm.
Qed.


Lemma Forall2_weaken {A B} (R Q : A -> B -> Prop) l1 l2 :
  Forall2 R l1 l2 -> (forall a b, In a l1 -> R a b -> Q a b) -> Forall2 Q l1 l2.
Proof.
  induction 1 as [| a b l1 l2 HR _ IH]; intros HQ; constructor.
  - apply HQ; [now left | exact HR].
  - apply IH. intros a' b' Hin. apply HQ. now right.
Qed.

Lemma coalesce_assoc a b c : a ?? b ?? c = a ?? (b ?? c).
Proof.
  unfold coalesce. destruct (isNullish a) eqn:Ha; [reflexivity | now rewrite Ha].
Qed.

(** C7, amended. For every document in which [analysisResult], each
    [matchingWords] and each [words] is absent or can be iterated, and each
    polygon that is an array has at least eight entries, none of the first
    eight an array or an object, [parseUploadedAzureJson] returns a
    sequence without throwing: one rectangle for each word whose polygon is
    an array, in the order of the document, a word whose polygon is missing
    or is not an array being passed over.  A document whose one word has a
    [null] polygon beside a word with a full polygon gives exactly one
    rectangle. *)
Theorem well_shaped_documents_parse raw uuids :
  wellShaped raw = true ->
  (exists out,
     parseUploadedAzureJson StringToNumber ObjectToNumber randomUUID raw uuids = Normal out
     /\ List.length out = List.length (acceptedIn raw)
     /\ Forall2 (emitsFor StringToNumber ObjectToNumber) (acceptedIn raw) out)
  /\ (exists r,
        parseUploadedAzureJson StringToNumber ObjectToNumber randomUUID
          Sample.nullSibling uuids = Normal [r]
        /\ x r = 1 /\ y r = 1 /\ width r = 2 /\ height r = 1 /\ unit r = inch).
Proof.
  intros Hshape. split.
  - destruct (parse_returns raw uuids Hshape)
      as [out Hout].
    exists out. split; [exact Hout |].
    pose proof (parse_emits _ _ _ Hout) as Hemits.
    split; [symmetry; exact (Forall2_length Hemits) | exact Hemits].
  - eexists. split; [reflexivity |]. repeat split.
Qed.

(** The corners of a polygon that starts with eight numbers. *)
Lemma coerced_numbers w p0 p1 p2 p3 p4 p5 p6 p7 rest :
  getOpt w "polygon" =
    VArr (VNum p0 :: VNum p1 :: VNum p2 :: VNum p3 ::
          VNum p4 :: VNum p5 :: VNum p6 :: VNum p7 :: rest) ->
  coerced w [0; 2; 4; 6]%nat = Normal [p0; p2; p4; p6]
  /\ coerced w [1; 3; 5; 7]%nat = Normal [p1; p3; p5; p7].
Proof.
  intros Hp. unfold coerceEntries, entry. rewrite Hp. split; reflexivity.
Qed.

(** C8, amended. For every word the parser keeps, the rectangle it
    emits is in inches, on the page of the word if present, else of the
    group, else of the first word of the group, else 1; and when the
    polygon starts with eight numbers, x is the Math.min of its
    x-coordinates, y the Math.min of its y-coordinates, width the Math.max
    of the x-coordinates minus their Math.min, and height likewise on the
    y-coordinates; when those x-coordinates (y-coordinates) are numbers,
    their Math.min is one of them and is below each, and their Math.max is
    one of them and is above each.  Polygon [1,1,3,1,3,2,1,2] on page 1
    gives exactly one rectangle, with x=1, y=1, width=2, height=1 in
    inches. *)
Theorem emitted_rectangle_is_bounding_box raw uuids out :
  parseUploadedAzureJson StringToNumber ObjectToNumber randomUUID raw uuids = Normal out ->
  Forall2 (fun mw r =>
      unit r = inch
      /\ page r = getOpt (snd mw) "page" ?? getOpt (fst mw) "page"
                  ?? getOpt (indexOpt (getOpt (fst mw) "words") 0) "page" ?? VNum 1
      /\ forall p0 p1 p2 p3 p4 p5 p6 p7 rest,
           getOpt (snd mw) "polygon" =
             VArr (VNum p0 :: VNum p1 :: VNum p2 :: VNum p3 ::
                   VNum p4 :: VNum p5 :: VNum p6 :: VNum p7 :: rest) ->
           x r = Math_min [p0; p2; p4; p6]
           /\ y r = Math_min [p1; p3; p5; p7]
           /\ width r = Math_max [p0; p2; p4; p6] - Math_min [p0; p2; p4; p6]
           /\ height r = Math_max [p1; p3; p5; p7] - Math_min [p1; p3; p5; p7]
           /\ (Forall aNumber [p0; p2; p4; p6] ->
               In (x r) [p0; p2; p4; p6]
               /\ Forall (fun a => (x r <=? a) = true) [p0; p2; p4; p6]
               /\ In (Math_max [p0; p2; p4; p6]) [p0; p2; p4; p6]
               /\ Forall (fun a => (a <=? Math_max [p0; p2; p4; p6]) = true)
                         [p0; p2; p4; p6])
           /\ (Forall aNumber [p1; p3; p5; p7] ->
               In (y r) [p1; p3; p5; p7]
               /\ Forall (fun a => (y r <=? a) = true) [p1; p3; p5; p7]
               /\ In (Math_max [p1; p3; p5; p7]) [p1; p3; p5; p7]
               /\ Forall (fun a => (a <=? Math_max [p1; p3; p5; p7]) = true)
                         [p1; p3; p5; p7]))
    (acceptedIn raw) out
  /\ parseUploadedAzureJson StringToNumber ObjectToNumber randomUUID Sample.oneWord uuids =
       Normal [ {| id := randomUUID uuids; page := VNum 1;
                   x := 1; y := 1; width := 2; height := 1; unit := inch;
                   label := VStr "w"; color := VUndefined |} ].
Proof.
  intros Hout. split; [| reflexivity].
  apply (Forall2_weaken _ _ _ _ (parse_emits _ _ _ Hout)).
  intros [m w] r Hkept Hr. apply filter_In in Hkept as [_ Hw]. cbn [fst snd] in *.
  destruct Hr as (xs & ys & Hxs & Hys & Hpage & Hx & Hy & Hwidth & Hheight & Hunit & _).
  cbn [fst snd] in *.
  destruct (hasArrayPolygon_object _ Hw) as (props & elems & -> & _).
  split; [exact Hunit |]. split.
  { rewrite Hpage. unfold groupPage. now rewrite !coalesce_assoc. }
  intros p0 p1 p2 p3 p4 p5 p6 p7 rest Hp.
  destruct (coerced_numbers _ _ _ _ _ _ _ _ _ _ Hp) as [Hxs' Hys'].
  rewrite Hxs' in Hxs. rewrite Hys' in Hys.
  injection Hxs as <-. injection Hys as <-.
  rewrite Hx, Hy, Hwidth, Hheight.
  do 4 (split; [reflexivity |]).
  split; intros Hnum;
    (destruct (Math_min_least _ Hnum) as [Hin Hle]; [discriminate |]);
    (destruct (Math_max_greatest _ Hnum) as [Hin' Hge]; [discriminate |]);
    repeat split; assumption.
Qed.

End Parser.


Lemma well_shaped_documents_parse_witness :
  (exists out,
     parseUploadedAzureJson Sample.StringToNumber Sample.ObjectToNumber Sample.randomUUID
       Sample.nullSibling 0 = Normal out
     /\ List.length out = List.length (acceptedIn Sample.nullSibling)
     /\ Forall2 (emitsFor Sample.StringToNumber Sample.ObjectToNumber)
                (acceptedIn Sample.nullSibling) out)
  /\ (exists r,
        parseUploadedAzureJson Sample.StringToNumber Sample.ObjectToNumber Sample.randomUUID
          Sample.nullSibling 0 = Normal [r]
        /\ x r = 1 /\ y r = 1 /\ width r = 2 /\ height r = 1 /\ unit r = inch).
Proof.
  exact (well_shaped_documents_parse Sample.StringToNumber Sample.ObjectToNumber
           Sample.randomUUID Sample.nullSibling 0 eq_refl).
Defined.

(** C7, as the specification states it, fails: a document whose
    [analysisResult] is the number 5 makes the parser throw a TypeError, and
    a word whose polygon has two entries is not passed over but emitted,
    with NaN coordinates. *)
Lemma ill_shaped_documents_are_not_absorbed :
  parseUploadedAzureJson Sample.StringToNumber Sample.ObjectToNumber Sample.randomUUID
    Sample.notIterable 0 = Throw (TypeError "value is not iterable")
  /\ exists r,
       parseUploadedAzureJson Sample.StringToNumber Sample.ObjectToNumber Sample.randomUUID
         Sample.shortPolygon 0 = Normal [r]
       /\ is_nan (x r) = true /\ is_nan (width r) = true.
Proof.
  split; [reflexivity |]. eexists. split; [reflexivity |]. split; reflexivity.
Qed.

Lemma emitted_rectangle_is_bounding_box_witness :
  Forall2 (fun mw r =>
      unit r = inch
      /\ page r = getOpt (snd mw) "page" ?? getOpt (fst mw) "page"
                  ?? getOpt (indexOpt (getOpt (fst mw) "words") 0) "page" ?? VNum 1
      /\ forall p0 p1 p2 p3 p4 p5 p6 p7 rest,
           getOpt (snd mw) "polygon" =
             VArr (VNum p0 :: VNum p1 :: VNum p2 :: VNum p3 ::
                   VNum p4 :: VNum p5 :: VNum p6 :: VNum p7 :: rest) ->
           x r = Math_min [p0; p2; p4; p6]
           /\ y r = Math_min [p1; p3; p5; p7]
           /\ width r = Math_max [p0; p2; p4; p6] - Math_min [p0; p2; p4; p6]
           /\ height r = Math_max [p1; p3; p5; p7] - Math_min [p1; p3; p5; p7]
           /\ (Forall aNumber [p0; p2; p4; p6] ->
               In (x r) [p0; p2; p4; p6]
               /\ Forall (fun a => (x r <=? a) = true) [p0; p2; p4; p6]
               /\ In (Math_max [p0; p2; p4; p6]) [p0; p2; p4; p6]
               /\ Forall (fun a => (a <=? Math_max [p0; p2; p4; p6]) = true)
                         [p0; p2; p4; p6])
           /\ (Forall aNumber [p1; p3; p5; p7] ->
               In (y r) [p1; p3; p5; p7]
               /\ Forall (fun a => (y r <=? a) = true) [p1; p3; p5; p7]
               /\ In (Math_max [p1; p3; p5; p7]) [p1; p3; p5; p7]
               /\ Forall (fun a => (a <=? Math_max [p1; p3; p5; p7]) = true)
                         [p1; p3; p5; p7]))
    (acceptedIn Sample.oneWord)
    [ {| id := Sample.randomUUID 0; page := VNum 1;
         x := 1; y := 1; width := 2; height := 1; unit := inch;
         label := VStr "w"; color := VUndefined |} ].
Proof.
  exact (proj1 (emitted_rectangle_is_bounding_box Sample.StringToNumber Sample.ObjectToNumber
                  Sample.randomUUID Sample.oneWord 0 _ eq_refl)).
Defined.

(** C8, as the specification states it, fails: in a group that names no
    page, a word that names no page is put on the page of the first word of
    the group (here 5), not on page 1. *)
Lemma page_of_first_word_comes_before_1 :
  getOpt Sample.pagelessGroup "page" = VUndefined
  /\ acceptedIn Sample.pageOfFirstWord =
       [(Sample.pagelessGroup, Sample.wordOn5); (Sample.pagelessGroup, Sample.word Sample.box)]
  /\ getOpt (Sample.word Sample.box) "page" = VUndefined
  /\ exists r1 r2,
       parseUploadedAzureJson Sample.StringToNumber Sample.ObjectToNumber Sample.randomUUID
         Sample.pageOfFirstWord 0 = Normal [r1; r2]
       /\ page r2 = VNum 5
       /\ page r2 <> VNum 1.
Proof.
  do 3 (split; [reflexivity |]). do 2 eexists. split; [reflexivity |].
  split; [reflexivity |]. cbn [page]. discriminate.
Qed.

(** ** The rectangle store *)

Lemma spread_id r patch i :
  p_id patch = None \/ (p_id patch = Some i /\ id r = i) -> id (spread r patch) = id r.
Proof.
  unfold spread. cbn [id]. intros [-> | [-> ->]]; reflexivity.
Qed.

Lemma updateRect_ids i patch prev :
  p_id patch = None \/ p_id patch = Some i ->
  map id (updateRect i patch prev) = map id prev.
Proof.
  intros Hpatch. unfold updateRect. rewrite map_map. apply map_ext. intros r.
  destruct (String.eqb (id r) i) eqn:Heq; [| reflexivity].
  apply String.eqb_eq in Heq. apply (spread_id r patch i). tauto.
Qed.

(** C10, as the specification states it, fails: a patch may carry an
    [id], and [updateRect] then overwrites the identifier of the rectangle
    it matches. *)
Lemma a_patch_can_rename :
  map id (updateRect "t" Sample.renaming [Sample.rectOf inch 1 1 2 1]) = ["b"%string]
  /\ map id (updateRect "t" Sample.renaming [Sample.rectOf inch 1 1 2 1])
     <> map id [Sample.rectOf inch 1 1 2 1].
Proof.
  split; [reflexivity | discriminate].
Qed.

(** C10, amended. For every store, identifier and patch that carries no
    [id] (or carries the identifier it is addressed to), [updateRect]
    leaves the [id] of every stored rectangle unchanged; the patches the
    editor issues are of that kind. *)
Theorem updateRect_keeps_ids i patch prev :
  p_id patch = None \/ p_id patch = Some i ->
  map id (updateRect i patch prev) = map id prev
  /\ forall e, map id (updateRect i (patchOf e) prev) = map id prev.
Proof.
  intros Hpatch. split; [now apply updateRect_ids |].
  intros e. apply updateRect_ids. left. now destruct e.
Qed.

Lemma updateRect_keeps_ids_witness :
  map id (updateRect "t" (patchOf (EditX 3)) [Sample.rectOf inch 1 1 2 1])
    = map id [Sample.rectOf inch 1 1 2 1].
Proof.
  apply (updateRect_keeps_ids "t" (patchOf (EditX 3)) [Sample.rectOf inch 1 1 2 1]).
  left. reflexivity.
Defined.

(** * Further properties of the code

    What the store, the page filter, the parser, the handlers of the editor
    and the slider do beyond what the specification states. *)

(** ** More binary64 arithmetic *)

(** Subtraction keeps the order: what is taken from a number that is not
    below it leaves nothing negative. *)
Module FloatSub.

Local Open Scope Z_scope.

Lemma iter_xO_value m d : Zpos (Pos.iter xO m d) = Zpos m * 2 ^ Zpos d.
Proof.
  induction d as [| d IH] using Pos.peano_ind.
  - cbn [Pos.iter]. rewrite Pos2Z.inj_xO. change (2 ^ 1) with 2. lia.
  - rewrite Pos.iter_succ, Pos2Z.inj_xO, IH, Pos2Z.inj_succ, Z.pow_succ_r by lia. lia.
Qed.

Lemma shl_align_value m e e' :
  e' <= e -> Zpos (fst (shl_align m e e')) = Zpos m * 2 ^ (e - e').
Proof.
  intros Hle. unfold shl_align. destruct (e' - e) as [| d | d] eqn:Hd.
  - replace (e - e') with 0 by lia. cbn [fst]. change (2 ^ 0) with 1. lia.
  - lia.
  - cbn [fst]. rewrite iter_xO_value. f_equal. f_equal. lia.
Qed.

Lemma digits2_pos_bounds m :
  2 ^ (Zpos (digits2_pos m) - 1) <= Zpos m < 2 ^ Zpos (digits2_pos m).
Proof.
  induction m as [m IH | m IH |]; cbn [digits2_pos].
  - rewrite Pos2Z.inj_succ, (Pos2Z.inj_xI m).
    replace (Z.succ (Zpos (digits2_pos m)) - 1) with (Zpos (digits2_pos m)) by lia.
    rewrite Z.pow_succ_r by lia.
    assert (H : 2 ^ Zpos (digits2_pos m) = 2 * 2 ^ (Zpos (digits2_pos m) - 1)).
    { rewrite <- Z.pow_succ_r by lia. f_equal. lia. }
    set (hi := 2 ^ Zpos (digits2_pos m)) in *.
    set (lo := 2 ^ (Zpos (digits2_pos m) - 1)) in *.
    clearbody hi lo. lia.
  - rewrite Pos2Z.inj_succ, (Pos2Z.inj_xO m).
    replace (Z.succ (Zpos (digits2_pos m)) - 1) with (Zpos (digits2_pos m)) by lia.
    rewrite Z.pow_succ_r by lia.
    assert (H : 2 ^ Zpos (digits2_pos m) = 2 * 2 ^ (Zpos (digits2_pos m) - 1)).
    { rewrite <- Z.pow_succ_r by lia. f_equal. lia. }
    set (hi := 2 ^ Zpos (digits2_pos m)) in *.
    set (lo := 2 ^ (Zpos (digits2_pos m) - 1)) in *.
    clearbody hi lo. lia.
  - change (2 ^ (1 - 1)) with 1. change (2 ^ 1) with 2. lia.
Qed.

(** What being a binary64 value says of a mantissa and its exponent. *)
Lemma bounded_canonical m e :
  bounded prec emax m e = true ->
  Z.max (Zpos (digits2_pos m) + e - 53) (-1074) = e.
Proof.
  unfold bounded, canonical_mantissa, fexp, emin, prec, emax.
  intros H. apply andb_prop in H as [H _]. apply Z.eqb_eq in H.
  replace (3 - 1024 - 53) with (-1074) in H by lia. exact H.
Qed.

(** Of two binary64 values of the same sign, the one with the larger
    exponent, or the same exponent and the larger mantissa, has the larger
    mantissa once both are written with the smaller exponent. *)
Lemma aligned_le mx ex my ey :
  bounded prec emax mx ex = true ->
  bounded prec emax my ey = true ->
  ey < ex \/ (ey = ex /\ Zpos my <= Zpos mx) ->
  Zpos my * 2 ^ (ey - Z.min ex ey) <= Zpos mx * 2 ^ (ex - Z.min ex ey).
Proof.
  intros Hx Hy [Hlt | [-> Hle]].
  - apply bounded_canonical in Hx, Hy.
    pose proof (digits2_pos_bounds mx) as Hdx. pose proof (digits2_pos_bounds my) as Hdy.
    rewrite Z.min_r by lia. replace (ey - ey) with 0 by lia. change (2 ^ 0) with 1.
    assert (Hdx53 : Zpos (digits2_pos mx) = 53) by lia.
    assert (Hdy53 : Zpos (digits2_pos my) <= 53) by lia.
    rewrite Hdx53 in Hdx.
    assert (Hmy : Zpos my < 2 ^ 53).
    { eapply Z.lt_le_trans; [apply Hdy |]. apply Z.pow_le_mono_r; lia. }
    assert (Hpow : 2 ^ 1 <= 2 ^ (ex - ey)) by (apply Z.pow_le_mono_r; lia).
    change (2 ^ 1) with 2 in Hpow. change (53 - 1) with 52 in Hdx.
    assert (H53 : 2 ^ 53 = 2 ^ 52 * 2) by reflexivity.
    nia.
  - rewrite Z.min_id. replace (ex - ex) with 0 by lia. change (2 ^ 0) with 1. lia.
Qed.

Lemma binary_round_aux_not_negative m e l :
  SFltb (binary_round_aux prec emax false m e l) (S754_zero false) = false.
Proof.
  unfold binary_round_aux.
  destruct (shr_fexp prec emax m e l) as [mrs' e'].
  destruct (shr_fexp prec emax _ e' loc_Exact) as [mrs'' e''].
  destruct (shr_m mrs''); [reflexivity | | reflexivity].
  destruct (e'' <=? emax - prec); reflexivity.
Qed.

Lemma binary_normalize_not_negative m e :
  0 <= m -> SFltb (binary_normalize prec emax m e false) (S754_zero false) = false.
Proof.
  intros Hm. unfold binary_normalize. destruct m as [| p | p]; [reflexivity | | lia].
  unfold binary_round. destruct (shl_align p e _) as [mz ez].
  apply binary_round_aux_not_negative.
Qed.

Local Open Scope float_scope.

(** Taking a number from one that is not below it never gives a negative
    number (it gives NaN for infinity minus infinity). *)
Lemma sub_not_negative a b : (b <=? a) = true -> (a - b <? 0) = false.
Proof.
  rewrite leb_spec, ltb_spec, sub_spec. change (Prim2SF 0) with (S754_zero false).
  pose proof (Prim2SF_valid a) as Va. pose proof (Prim2SF_valid b) as Vb.
  unfold SF64sub, SFleb.
  destruct (Prim2SF a) as [sa | sa | | sa ma ea], (Prim2SF b) as [sb | sb | | sb mb eb];
    try destruct sa; try destruct sb; cbn [SFcompare SFsub negb]; try reflexivity;
    try discriminate; cbn [valid_binary] in Va, Vb.
  all: intros Hle; apply binary_normalize_not_negative; unfold cond_Zopp.
  all: rewrite (shl_align_value ma ea) by lia; rewrite (shl_align_value mb eb) by lia.
  - (* both negative: b <= a *)
    change (Pos.compare_cont Eq mb ma) with (Pos.compare mb ma) in Hle.
    assert (H : ea < eb \/ (ea = eb /\ Zpos ma <= Zpos mb)).
    { destruct (Z.compare_spec eb ea), (Pos.compare_spec mb ma); cbn [CompOpp] in Hle;
        try discriminate; lia. }
    pose proof (aligned_le mb eb ma ea Vb Va H) as Hal.
    rewrite (Z.min_comm eb ea) in Hal. lia.
  - (* a positive, b negative *)
    pose proof (Z.pow_nonneg 2 (ea - Z.min ea eb)). pose proof (Z.pow_nonneg 2 (eb - Z.min ea eb)).
    nia.
  - (* both positive *)
    change (Pos.compare_cont Eq mb ma) with (Pos.compare mb ma) in Hle.
    assert (H : eb < ea \/ (eb = ea /\ Zpos mb <= Zpos ma)).
    { destruct (Z.compare_spec eb ea), (Pos.compare_spec mb ma);
        try discriminate; lia. }
    pose proof (aligned_le ma ea mb eb Va Vb H) as Hal. lia.
Qed.

End FloatSub.

(** Subtraction and [Math.min] under a swap of their arguments. *)
Module FloatSwap.

Local Open Scope Z_scope.

Lemma binary_round_aux_abs s s' m e l :
  SFabs (binary_round_aux prec emax s m e l) = SFabs (binary_round_aux prec emax s' m e l).
Proof.
  unfold binary_round_aux.
  destruct (shr_fexp prec emax m e l) as [mrs' e'].
  destruct (shr_fexp prec emax _ e' loc_Exact) as [mrs'' e''].
  destruct (shr_m mrs''); [reflexivity | | reflexivity].
  destruct (e'' <=? emax - prec); reflexivity.
Qed.

Lemma binary_normalize_abs_opp m e :
  SFabs (binary_normalize prec emax (- m) e false) = SFabs (binary_normalize prec emax m e false).
Proof.
  unfold binary_normalize. destruct m as [| p | p]; cbn [Z.opp]; [reflexivity | |];
    unfold binary_round; destruct (shl_align p e _) as [mz ez]; apply binary_round_aux_abs.
Qed.

Local Open Scope float_scope.

(** The distance between two numbers does not depend on their order. *)
Lemma abs_sub_swap a b : abs (a - b) = abs (b - a).
Proof.
  apply Prim2SF_inj. rewrite !abs_spec, !sub_spec. unfold SF64sub.
  destruct (Prim2SF a) as [sa | sa | | sa ma ea], (Prim2SF b) as [sb | sb | | sb mb eb];
    try destruct sa; try destruct sb; cbn [SFsub SFabs negb]; try reflexivity.
  all: rewrite (Z.min_comm eb ea), <- binary_normalize_abs_opp; f_equal; f_equal;
    unfold cond_Zopp; lia.
Qed.

Lemma is_zero_Prim2SF a :
  is_zero a = match Prim2SF a with S754_zero _ => true | _ => false end.
Proof.
  unfold is_zero. rewrite eqb_spec. change (Prim2SF zero) with (S754_zero false).
  unfold SFeqb. destruct (Prim2SF a) as [s | [] | | [] m e]; reflexivity.
Qed.

Lemma get_sign_zero a s : Prim2SF a = S754_zero s -> get_sign a = s.
Proof.
  intros Ha. unfold get_sign. rewrite is_zero_Prim2SF, Ha, ltb_spec, div_spec, Ha.
  change (Prim2SF zero) with (S754_zero false).
  assert (H1 : Prim2SF one = S754_finite false 4503599627370496 (-52)) by reflexivity.
  rewrite H1. now destruct s.
Qed.

(** The two tests on zeros that [Math.min] makes. *)
Lemma zero_flags a :
  match Prim2SF a with
  | S754_zero s => is_neg_zero a = s /\ is_pos_zero a = negb s
  | _ => is_neg_zero a = false /\ is_pos_zero a = false
  end.
Proof.
  unfold is_neg_zero, is_pos_zero. rewrite is_zero_Prim2SF.
  destruct (Prim2SF a) as [s | s | | s m e] eqn:Ha; cbn [andb]; try (split; reflexivity).
  now rewrite (get_sign_zero a s Ha).
Qed.

Lemma key_injective x y :
  x <> S754_nan -> y <> S754_nan -> key x = key y ->
  x = y \/ exists s s', x = S754_zero s /\ y = S754_zero s'.
Proof.
  intros Hx Hy.
  destruct x as [sx | [] | | [] mx ex], y as [sy | [] | | [] my ey]; cbn [key];
    try congruence; intros [= ]; subst; auto.
  - right. now exists sx, sy.
  - left. f_equal. lia.
Qed.

Lemma min_loop_first a l : is_nan a = false -> min_loop infinity (a :: l) = min_loop a l.
Proof.
  intros Ha. cbn [min_loop]. rewrite Ha.
  replace (is_pos_zero infinity) with false by reflexivity. rewrite andb_false_r.
  destruct (a <? infinity) eqn:Hlt; [reflexivity |].
  assert (Hinf : a = infinity); [| now rewrite Hinf].
  apply Prim2SF_inj. rewrite ltb_spec in Hlt. apply is_nan_false in Ha.
  change (Prim2SF infinity) with (S754_infinity false) in *. unfold SFltb in Hlt.
  destruct (Prim2SF a) as [? | [] | | [] ? ?]; cbn [SFcompare] in Hlt; congruence.
Qed.

(** [Math.min] of two numbers does not depend on their order. *)
Lemma Math_min_swap a b : Math_min [a; b] = Math_min [b; a].
Proof.
  destruct (is_nan a) eqn:Ha.
  { rewrite !Math_min_nan; auto using Exists_cons_hd, Exists_cons_tl. }
  destruct (is_nan b) eqn:Hb.
  { rewrite !Math_min_nan; auto using Exists_cons_hd, Exists_cons_tl. }
  unfold Math_min. rewrite !min_loop_first by assumption. cbn [min_loop]. rewrite Ha, Hb.
  pose proof (zero_flags a) as Fa. pose proof (zero_flags b) as Fb.
  pose proof (ltb_key a b Ha Hb) as Lab. pose proof (ltb_key b a Hb Ha) as Lba.
  pose proof (proj1 (is_nan_false a) Ha) as Na. pose proof (proj1 (is_nan_false b) Hb) as Nb.
  assert (Hsame : (a <? b) = false -> (b <? a) = false -> Prim2SF a = Prim2SF b -> a = b).
  { intros _ _. apply Prim2SF_inj. }
  assert (Hkey : (a <? b) = false -> (b <? a) = false ->
                 key (Prim2SF a) = key (Prim2SF b)).
  { intros H1 H2.
    destruct (a <? b); [discriminate |]. destruct (b <? a); [discriminate |].
    destruct (key (Prim2SF a)) as [[a1 a2] a3], (key (Prim2SF b)) as [[b1 b2] b3].
    cbn [lex_lt] in *.
    assert (Hn1 : ~ (a1 < b1 \/ a1 = b1 /\ (a2 < b2 \/ a2 = b2 /\ a3 < b3)))
      by (intros Hlt; apply Lab in Hlt; discriminate).
    assert (Hn2 : ~ (b1 < a1 \/ b1 = a1 /\ (b2 < a2 \/ b2 = a2 /\ b3 < a3)))
      by (intros Hlt; apply Lba in Hlt; discriminate).
    f_equal; [f_equal |]; lia. }
  assert (Hasym : (a <? b) = true -> (b <? a) = true -> False).
  { intros H1 H2. apply Lab in H1. apply Lba in H2.
    destruct (key (Prim2SF a)) as [[a1 a2] a3], (key (Prim2SF b)) as [[b1 b2] b3].
    cbn [lex_lt] in *. lia. }
  destruct (a <? b) eqn:Hab, (b <? a) eqn:Hba.
  - exfalso. now apply Hasym.
  - destruct (Prim2SF a) as [sa | | |], (Prim2SF b) as [sb | | |];
      destruct Fa as [-> ->], Fb as [-> ->]; rewrite ?andb_false_r; cbn [andb]; try reflexivity.
    exfalso. pose proof (proj1 Lab eq_refl) as Hl. cbn in Hl. lia.
  - destruct (Prim2SF a) as [sa | | |], (Prim2SF b) as [sb | | |];
      destruct Fa as [-> ->], Fb as [-> ->]; rewrite ?andb_false_r; cbn [andb]; try reflexivity.
    exfalso. pose proof (proj1 Lba eq_refl) as Hl. cbn in Hl. lia.
  - specialize (Hkey eq_refl eq_refl).
    destruct (key_injective _ _ Na Nb Hkey) as [Heq | (sa & sb & Hza & Hzb)].
    + rewrite (Hsame eq_refl eq_refl Heq). now destruct (is_neg_zero b && is_pos_zero b).
    + rewrite Hza in Fa. rewrite Hzb in Fb. destruct Fa as [-> ->], Fb as [-> ->].
      destruct sa, sb; cbn [andb negb]; try reflexivity;
        apply Prim2SF_inj; congruence.
Qed.

End FloatSwap.

(** ** More on the rectangle store *)

Lemma spread_keeps_id r patch i :
  id r = i -> p_id patch = None \/ p_id patch = Some i -> id (spread r patch) = i.
Proof.
  intros Hr [Hp | Hp]; unfold spread; cbn [id]; rewrite Hp; cbn [override]; auto.
Qed.

Lemma updateRect_no_match i patch prev :
  ~ In i (map id prev) -> updateRect i patch prev = prev.
Proof.
  intros Habsent. unfold updateRect. rewrite <- (map_id prev) at 2.
  apply map_ext_in. intros r Hr.
  destruct (String.eqb (id r) i) eqn:Heq; [| reflexivity].
  apply String.eqb_eq in Heq. exfalso. apply Habsent. rewrite <- Heq. now apply in_map.
Qed.

Lemma removeRect_no_match i prev :
  ~ In i (map id prev) -> removeRect i prev = prev.
Proof.
  intros Habsent. unfold removeRect. apply forallb_filter_id. apply forallb_forall.
  intros r Hr. apply negb_true_iff, String.eqb_neq. intros Hid. apply Habsent.
  rewrite <- Hid. now apply in_map.
Qed.

(** X1. [updateRect] with an identifier that no stored rectangle carries
    changes nothing, whatever the patch. *)
Theorem updateRect_absent_id i patch prev :
  ~ In i (map id prev) ->
  updateRect i patch prev = prev.
Proof. apply updateRect_no_match. Qed.

Lemma updateRect_absent_id_witness :
  updateRect "gone" Sample.renaming [Sample.rectOf inch 1 1 2 1]
    = [Sample.rectOf inch 1 1 2 1].
Proof.
  apply (updateRect_absent_id "gone" Sample.renaming [Sample.rectOf inch 1 1 2 1]).
  cbn. intros [H | []]. discriminate H.
Defined.

(** X2. [updateRect] keeps the number and the order of the rectangles: the
    rectangle at each position stays as it is when its identifier is not the
    one addressed, and is overlaid with the patch when it is. *)
Theorem updateRect_touches_only_its_id i patch prev :
  List.length (updateRect i patch prev) = List.length prev
  /\ forall k r,
       nth_error prev k = Some r ->
       (id r <> i -> nth_error (updateRect i patch prev) k = Some r)
       /\ (id r = i -> nth_error (updateRect i patch prev) k = Some (spread r patch)).
Proof.
  unfold updateRect. split; [apply length_map |].
  intros k r Hk. rewrite nth_error_map, Hk. cbn [option_map].
  split; intros Hid.
  - apply String.eqb_neq in Hid. now rewrite Hid.
  - apply String.eqb_eq in Hid. now rewrite Hid.
Qed.

Lemma updateRect_touches_only_its_id_witness :
  nth_error (updateRect "t" (patchOf (EditX 3)) [Sample.rectOf inch 1 1 2 1]) 0
    = Some (spread (Sample.rectOf inch 1 1 2 1) (patchOf (EditX 3))).
Proof.
  destruct (updateRect_touches_only_its_id "t" (patchOf (EditX 3)) [Sample.rectOf inch 1 1 2 1])
    as [_ Hat].
  destruct (Hat 0%nat (Sample.rectOf inch 1 1 2 1) eq_refl) as [_ Hhit].
  apply Hhit. reflexivity.
Defined.

Lemma spread_spread r p q : spread (spread r p) q = spread r (mergePatch p q).
Proof.
  unfold spread, mergePatch. cbn.
  destruct q as [[?|] [?|] [?|] [?|] [?|] [?|] [?|] [?|] [?|]]; reflexivity.
Qed.

(** X3. Two patches sent to the same identifier, the first of which does
    not rename, act as their merge [{...p, ...q}]: the later patch wins on
    the fields both carry. *)
Theorem updateRect_twice i p q prev :
  p_id p = None \/ p_id p = Some i ->
  updateRect i q (updateRect i p prev) = updateRect i (mergePatch p q) prev.
Proof.
  intros Hp. unfold updateRect. rewrite map_map. apply map_ext. intros r.
  destruct (String.eqb (id r) i) eqn:Heq.
  - apply String.eqb_eq in Heq.
    rewrite (spread_keeps_id r p i Heq Hp), String.eqb_refl. apply spread_spread.
  - now rewrite Heq.
Qed.

Lemma updateRect_twice_witness :
  updateRect "t" (patchOf (EditX 4)) (updateRect "t" (patchOf (EditX 3))
    [Sample.rectOf inch 1 1 2 1])
  = updateRect "t" (mergePatch (patchOf (EditX 3)) (patchOf (EditX 4)))
      [Sample.rectOf inch 1 1 2 1].
Proof.
  apply (updateRect_twice "t" (patchOf (EditX 3)) (patchOf (EditX 4))
           [Sample.rectOf inch 1 1 2 1]).
  left. reflexivity.
Defined.



(** X5. [removeRect] removes every rectangle that carries the identifier
    and no other, keeping the order of the rest; removing an identifier that
    is not stored changes nothing, and removing twice is removing once. *)
Theorem removeRect_removes_its_id i prev :
  ~ In i (map id (removeRect i prev))
  /\ (forall r, In r prev -> id r <> i -> In r (removeRect i prev))
  /\ (forall r, In r (removeRect i prev) -> In r prev)
  /\ (~ In i (map id prev) -> removeRect i prev = prev)
  /\ removeRect i (removeRect i prev) = removeRect i prev.
Proof.
  unfold removeRect.
  assert (Hgone : ~ In i (map id (filter (fun r => negb (String.eqb (id r) i)) prev))).
  { rewrite in_map_iff. intros (r & Hid & Hin). apply filter_In in Hin as [_ Hkeep].
    rewrite Hid, String.eqb_refl in Hkeep. discriminate Hkeep. }
  pose proof (removeRect_no_match i) as Habsent. unfold removeRect in Habsent.
  repeat split.
  - exact Hgone.
  - intros r Hin Hid. apply filter_In. split; [exact Hin |].
    now apply negb_true_iff, String.eqb_neq.
  - intros r Hin. now apply filter_In in Hin.
  - apply Habsent.
  - now apply Habsent.
Qed.

Lemma removeRect_removes_its_id_witness :
  ~ In "t"%string (map id (removeRect "t" [Sample.rectOf inch 1 1 2 1; Sample.stored])).
Proof.
  exact (proj1 (removeRect_removes_its_id "t" [Sample.rectOf inch 1 1 2 1; Sample.stored])).
Defined.

(** X6. After a patch that does not rename, [removeRect] of the same
    identifier leaves what it would have left without the patch; after a
    patch that renames to another identifier, the old identifier addresses
    nothing and [removeRect] of it removes nothing. *)
Theorem removeRect_after_updateRect i patch prev :
  (p_id patch = None \/ p_id patch = Some i ->
   removeRect i (updateRect i patch prev) = removeRect i prev)
  /\ (forall b, p_id patch = Some b -> b <> i ->
      removeRect i (updateRect i patch prev) = updateRect i patch prev).
Proof.
  unfold removeRect, updateRect. split.
  - intros Hp. induction prev as [| r rest IH]; [reflexivity |].
    cbn [map filter]. rewrite IH.
    destruct (String.eqb (id r) i) eqn:Heq.
    + apply String.eqb_eq in Heq.
      now rewrite (spread_keeps_id r patch i Heq Hp), String.eqb_refl.
    + now rewrite Heq.
  - intros b Hb Hbi. apply forallb_filter_id. apply forallb_forall.
    intros r' Hin. apply in_map_iff in Hin as (r & <- & _).
    apply negb_true_iff, String.eqb_neq.
    destruct (String.eqb (id r) i) eqn:Heq.
    + unfold spread. cbn [id]. now rewrite Hb.
    + now apply String.eqb_neq.
Qed.

Lemma removeRect_after_updateRect_witness :
  removeRect "t" (updateRect "t" (patchOf (EditX 3)) [Sample.rectOf inch 1 1 2 1])
    = removeRect "t" [Sample.rectOf inch 1 1 2 1]
  /\ removeRect "t" (updateRect "t" Sample.renaming [Sample.rectOf inch 1 1 2 1])
     = updateRect "t" Sample.renaming [Sample.rectOf inch 1 1 2 1].
Proof.
  destruct (removeRect_after_updateRect "t" (patchOf (EditX 3)) [Sample.rectOf inch 1 1 2 1])
    as [Hkeep _].
  destruct (removeRect_after_updateRect "t" Sample.renaming [Sample.rectOf inch 1 1 2 1])
    as [_ Hrename].
  split.
  - apply Hkeep. left. reflexivity.
  - apply (Hrename "b"%string); [reflexivity | discriminate].
Defined.

(** ** The rectangles of a page *)

(** Equality of numbers: both are numbers and have the same key. *)
Lemma eqb_key a b :
  (a =? b) = true <-> is_nan a = false /\ is_nan b = false
                      /\ key (Prim2SF a) = key (Prim2SF b).
Proof.
  rewrite eqb_spec, !is_nan_false. unfold SFeqb. split.
  - intros H.
    assert (Ha : Prim2SF a <> S754_nan) by (intros E; rewrite E in H; discriminate H).
    assert (Hb : Prim2SF b <> S754_nan).
    { intros E; rewrite E in H. destruct (Prim2SF a); discriminate H. }
    destruct (SFcompare_key _ _ Ha Hb) as (c & Hc & _ & HEq & _).
    rewrite Hc in H. repeat split; auto. apply HEq. now destruct c.
  - intros (Ha & Hb & Hk).
    destruct (SFcompare_key _ _ Ha Hb) as (c & Hc & _ & HEq & _).
    rewrite Hc. apply HEq in Hk. now subst c.
Qed.

Lemma eqb_trans_l n p q : (n =? p) = true -> (n =? q) = true -> (p =? q) = true.
Proof.
  rewrite !eqb_key. intros (_ & Hp & Hnp) (_ & Hq & Hnq). repeat split; congruence.
Qed.

(** X7. A rectangle is drawn on one page at most: it is not among the
    rectangles of two page numbers that differ. *)
Theorem drawn_on_one_page_at_most p q r rects0 :
  (p =? q) = false ->
  In r (pageRects p rects0) ->
  ~ In r (pageRects q rects0).
Proof.
  unfold pageRects. intros Hpq Hp Hq.
  apply filter_In in Hp as [_ Hp]. apply filter_In in Hq as [_ Hq].
  unfold strictEqualsNumber in *. destruct (page r); try discriminate.
  rewrite (eqb_trans_l _ _ _ Hp Hq) in Hpq. discriminate.
Qed.

Lemma drawn_on_one_page_at_most_witness :
  ~ In (Sample.rectOf inch 1 1 2 1) (pageRects 2 [Sample.rectOf inch 1 1 2 1]).
Proof.
  apply (drawn_on_one_page_at_most 1 2 (Sample.rectOf inch 1 1 2 1)
           [Sample.rectOf inch 1 1 2 1]).
  - reflexivity.
  - left. reflexivity.
Defined.


(** X8. A rectangle whose page is not a number (a string or [null] taken
    from a document, [undefined]) or is NaN is drawn on no page, and stays
    in the store all the same. *)
Theorem unnumbered_page_is_never_drawn p r rects0 :
  numberedPage (page r) = false ->
  ~ In r (pageRects p rects0).
Proof.
  unfold pageRects. intros Hpage Hin. apply filter_In in Hin as [_ Hin].
  unfold strictEqualsNumber, numberedPage in *. destruct (page r); try discriminate.
  apply eqb_key in Hin as [Hn _]. rewrite Hn in Hpage. discriminate.
Qed.

Lemma unnumbered_page_is_never_drawn_witness :
  ~ In Sample.onPageString (pageRects 2 [Sample.onPageString]).
Proof.
  apply (unnumbered_page_is_never_drawn 2 Sample.onPageString [Sample.onPageString]).
  reflexivity.
Defined.

(** ** More on the ingestion parser *)

Lemma forOf_app {S : Type} (body : value -> S -> completion S) a b s :
  forOf (a ++ b) body s = (s' <- forOf a body s ;; forOf b body s').
Proof.
  revert s. induction a as [| item a IH]; intros s; cbn [app forOf bind]; [reflexivity |].
  destruct (body item s) as [s1 | e]; cbn [bind]; [apply IH | reflexivity].
Qed.

Lemma forOf_throws {S : Type} (body : value -> S -> completion S) items item :
  In item items ->
  (forall s, exists e, body item s = Throw e) ->
  forall s, exists e, forOf items body s = Throw e.
Proof.
  intros Hin Hthrows. induction items as [| item' rest IH]; intros s; [destruct Hin |].
  cbn [forOf]. destruct Hin as [-> | Hin].
  - destruct (Hthrows s) as [e ->]. now exists e.
  - destruct (body item' s) as [s1 | e]; cbn [bind]; [now apply IH | now exists e].
Qed.

Lemma forallb_false {A} (f : A -> bool) l :
  forallb f l = false -> exists a, In a l /\ f a = false.
Proof.
  induction l as [| a l IH]; cbn [forallb]; [discriminate |].
  destruct (f a) eqn:Ha; cbn [andb].
  - intros H. destruct (IH H) as (a' & Hin & Ha'). exists a'. split; [now right | exact Ha'].
  - intros _. exists a. split; [now left | exact Ha].
Qed.

Lemma not_iterable_throws v : iterable v = false -> exists e, iterate v = Throw e.
Proof. unfold iterable. destruct (iterate v) as [l | e]; [discriminate | now exists e]. Qed.

Section ParserMore.

Variable StringToNumber : string -> number.
Variable ObjectToNumber : value -> completion number.
Variable randomUUID : nat -> string.

Local Abbreviation coerce := (ToNumber StringToNumber ObjectToNumber).
Local Abbreviation coerced := (coerceEntries StringToNumber ObjectToNumber).
Local Abbreviation wordStep := (wordBody StringToNumber ObjectToNumber randomUUID).
Local Abbreviation matchStep := (matchBody StringToNumber ObjectToNumber randomUUID).
Local Abbreviation resultStep := (resultBody StringToNumber ObjectToNumber randomUUID).
Local Abbreviation parse :=
  (parseUploadedAzureJson StringToNumber ObjectToNumber randomUUID).
Local Abbreviation emittedFor := (emitsFor StringToNumber ObjectToNumber).
Local Abbreviation extended := (extends randomUUID).

Lemma extends_refl st : extended st st.
Proof.
  exists []. cbn. now rewrite app_nil_r, Nat.add_0_r.
Qed.

Lemma extends_trans st1 st2 st3 : extended st1 st2 -> extended st2 st3 -> extended st1 st3.
Proof.
  intros (rs1 & Hr1 & Hd1 & Hi1) (rs2 & Hr2 & Hd2 & Hi2).
  exists (rs1 ++ rs2). rewrite Hr2, Hr1, Hd2, Hd1, length_app, seq_app, !map_app.
  repeat split.
  - now rewrite app_assoc.
  - lia.
  - rewrite Hi1. f_equal. now rewrite Hi2, Hd1.
Qed.

Lemma forOf_extends (body : value -> ParseState -> completion ParseState) items :
  (forall item st st', body item st = Normal st' -> extended st st') ->
  forall st st', forOf items body st = Normal st' -> extended st st'.
Proof.
  intros Hbody. induction items as [| item rest IH]; intros st st'; cbn [forOf].
  - intros [= <-]. apply extends_refl.
  - destruct (body item st) as [st1 | e] eqn:Hitem; cbn [bind]; [| discriminate].
    intros Hrest. eapply extends_trans; eauto.
Qed.

Lemma wordStep_extends page0 w st st' :
  wordStep page0 w st = Normal st' -> extended st st'.
Proof.
  destruct (hasArrayPolygon w) eqn:Hw.
  - rewrite (wordBody_keeps _ _ _ _ _ _ Hw).
    destruct (coerced w [0; 2; 4; 6]%nat) as [xs | e]; cbn [bind]; [| discriminate].
    destruct (coerced w [1; 3; 5; 7]%nat) as [ys | e]; cbn [bind]; [| discriminate].
    intros [= <-]. eexists. cbn [rects drawn]. split; [reflexivity |].
    cbn. split; [lia | reflexivity].
  - rewrite (wordBody_skips _ _ _ _ _ _ Hw). intros [= <-]. apply extends_refl.
Qed.

Lemma matchStep_extends m st st' : matchStep m st = Normal st' -> extended st st'.
Proof.
  unfold matchBody. destruct (iterate _) as [ws | e]; cbn [bind]; [| discriminate].
  apply forOf_extends. intros w. apply wordStep_extends.
Qed.

Lemma resultStep_extends res st st' : resultStep res st = Normal st' -> extended st st'.
Proof.
  unfold resultBody. destruct (iterate _) as [ms | e]; cbn [bind]; [| discriminate].
  apply forOf_extends. intros m. apply matchStep_extends.
Qed.

Lemma parse_ids raw uuids out :
  parse raw uuids = Normal out ->
  map id out = map randomUUID (seq uuids (List.length out)).
Proof.
  unfold parseUploadedAzureJson.
  destruct (iterate _) as [rs | e]; cbn [bind]; [| discriminate].
  destruct (forOf rs resultStep _) as [st' | e] eqn:Hloop; cbn [bind]; [| discriminate].
  intros [= <-].
  destruct (forOf_extends _ rs resultStep_extends _ _ Hloop) as (out & Hr & _ & Hi).
  cbn [rects drawn app] in Hr, Hi. now rewrite Hr.
Qed.

(** X9. The rectangles the parser returns carry, in order, the identifiers
    that [crypto.randomUUID] hands out from the first call on: the k-th
    rectangle has the k-th identifier. *)
Theorem parsed_ids_are_the_next_uuids raw uuids out :
  parse raw uuids = Normal out ->
  map id out = map randomUUID (seq uuids (List.length out)).
Proof. apply parse_ids. Qed.

(** A document with a node that cannot be iterated makes the parser
    throw, whatever else it holds. *)
Lemma bad_node_throws raw uuids :
  nodesIterable raw = false -> exists e, parse raw uuids = Throw e.
Proof.
  unfold nodesIterable, parseUploadedAzureJson. fold (resultsOf raw). intros H.
  destruct (iterable (resultsOf raw)) eqn:Hrs; cbn [andb] in H.
  - rewrite (iterable_visited _ Hrs). cbn [bind].
    destruct (forallb_false _ _ H) as (res & Hres & Hbad).
    destruct (forOf_throws resultStep _ res Hres) with (s := {| rects := []; drawn := uuids |})
      as [e ->]; [| now exists e].
    intros st. unfold resultBody. fold (matchesOf res).
    destruct (iterable (matchesOf res)) eqn:Hms; cbn [andb] in Hbad.
    + rewrite (iterable_visited _ Hms). cbn [bind].
      destruct (forallb_false _ _ Hbad) as (m & Hm & Hbadm).
      apply forOf_throws with (item := m); [exact Hm |].
      intros st1. unfold matchBody. fold (wordsOf m).
      destruct (not_iterable_throws _ Hbadm) as [e ->]. now exists e.
    + destruct (not_iterable_throws _ Hms) as [e ->]. now exists e.
  - destruct (not_iterable_throws _ Hrs) as [e ->]. now exists e.
Qed.

(** X10. A document whose nodes can be iterated and in which no word has
    an array for polygon (no [analysisResult], no words, polygons that are
    [null], strings or missing) gives the empty sequence. *)
Theorem nothing_kept_gives_empty raw uuids :
  nodesIterable raw = true ->
  acceptedIn raw = [] ->
  parse raw uuids = Normal [].
Proof.
  intros Hnodes Hnone.
  assert (Hshape : wellShaped raw = true).
  { unfold wellShaped, nodesIterable in *.
    apply andb_prop in Hnodes as [Hrs Hall]. rewrite Hrs. cbn [andb].
    rewrite forallb_forall in *. intros res Hres.
    specialize (Hall res Hres). apply andb_prop in Hall as [Hms Hall].
    rewrite Hms. cbn [andb]. rewrite forallb_forall in *. intros m Hm.
    rewrite (Hall m Hm). cbn [andb]. apply forallb_forall. intros w Hw.
    destruct (hasArrayPolygon w) eqn:Hkeep; [| reflexivity]. exfalso.
    assert (Hin : In (m, w) (acceptedIn raw)); [| rewrite Hnone in Hin; exact Hin].
    unfold acceptedIn, wordsIn. apply filter_In. split; [| exact Hkeep].
    apply in_flat_map. exists res. split; [exact Hres |].
    apply in_flat_map. exists m. split; [exact Hm |]. now apply in_map. }
  destruct (parse_returns StringToNumber ObjectToNumber randomUUID raw uuids Hshape)
    as [out Hout].
  pose proof (parse_emits _ _ _ _ _ _ Hout) as Hemits.
  rewrite Hnone in Hemits. inversion Hemits; subst. exact Hout.
Qed.




Lemma forOf_frame (body : value -> ParseState -> completion ParseState) pre items :
  (forall item st, body item (prepend pre st) = onNormal (prepend pre) (body item st)) ->
  forall st, forOf items body (prepend pre st) = onNormal (prepend pre) (forOf items body st).
Proof.
  intros Hbody. induction items as [| item rest IH]; intros st; cbn [forOf]; [reflexivity |].
  rewrite Hbody. destruct (body item st) as [st1 | e]; cbn [bind onNormal]; [apply IH | reflexivity].
Qed.

Lemma wordStep_frame pre page0 w st :
  wordStep page0 w (prepend pre st) = onNormal (prepend pre) (wordStep page0 w st).
Proof.
  destruct (hasArrayPolygon w) eqn:Hw.
  - rewrite !(wordBody_keeps _ _ _ _ _ _ Hw).
    destruct (coerced w [0; 2; 4; 6]%nat) as [xs | e]; cbn [bind onNormal]; [| reflexivity].
    destruct (coerced w [1; 3; 5; 7]%nat) as [ys | e]; cbn [bind onNormal]; [| reflexivity].
    unfold prepend. cbn [rects drawn]. now rewrite app_assoc.
  - now rewrite !(wordBody_skips _ _ _ _ _ _ Hw).
Qed.

Lemma matchStep_frame pre m st :
  matchStep m (prepend pre st) = onNormal (prepend pre) (matchStep m st).
Proof.
  unfold matchBody. destruct (iterate _) as [ws | e]; cbn [bind onNormal]; [| reflexivity].
  apply forOf_frame. intros w st1. apply wordStep_frame.
Qed.

Lemma resultStep_frame pre res st :
  resultStep res (prepend pre st) = onNormal (prepend pre) (resultStep res st).
Proof.
  unfold resultBody. destruct (iterate _) as [ms | e]; cbn [bind onNormal]; [| reflexivity].
  apply forOf_frame. intros m st1. apply matchStep_frame.
Qed.

(** X12. Parsing a document whose [analysisResult] is the concatenation of
    two arrays gives the rectangles of the first part followed by those of
    the second, the second part being parsed once the identifiers of the
    first are handed out. *)
Theorem parse_concatenation raw rawA rawB a b uuids outA outB :
  getOpt raw "analysisResult" = VArr (a ++ b) ->
  getOpt rawA "analysisResult" = VArr a ->
  getOpt rawB "analysisResult" = VArr b ->
  parse rawA uuids = Normal outA ->
  parse rawB (uuids + List.length outA) = Normal outB ->
  parse raw uuids = Normal (outA ++ outB).
Proof.
  unfold parseUploadedAzureJson. intros -> -> ->. cbn [coalesce isNullish iterate bind].
  rewrite forOf_app.
  destruct (forOf a resultStep _) as [stA | e] eqn:HA; cbn [bind]; [| discriminate].
  intros [= <-].
  destruct (forOf_extends _ a resultStep_extends _ _ HA) as (rs & Hr & Hd & _).
  cbn [rects drawn app] in Hr, Hd.
  assert (HstA : stA = prepend (rects stA) {| rects := []; drawn := (uuids + List.length (rects stA))%nat |}).
  { unfold prepend. cbn [rects drawn]. rewrite app_nil_r. destruct stA as [r d].
    cbn [rects drawn] in *. subst. reflexivity. }
  intros HB. rewrite HstA at 1. rewrite (forOf_frame _ _ _ (resultStep_frame _)).
  destruct (forOf b resultStep _) as [stB | e]; cbn [bind onNormal] in *; [| discriminate].
  injection HB as <-. reflexivity.
Qed.

End ParserMore.

Lemma parsed_ids_are_the_next_uuids_witness :
  exists out,
    parseUploadedAzureJson Sample.StringToNumber Sample.ObjectToNumber Sample.randomUUID
      Sample.pageOfFirstWord 3 = Normal out
    /\ map id out = ["uuid-3"; "uuid-4"]%string.
Proof.
  eexists. split; [reflexivity |].
  exact (parsed_ids_are_the_next_uuids Sample.StringToNumber Sample.ObjectToNumber
           Sample.randomUUID Sample.pageOfFirstWord 3 _ eq_refl).
Defined.

Lemma nothing_kept_gives_empty_witness :
  parseUploadedAzureJson Sample.StringToNumber Sample.ObjectToNumber Sample.randomUUID
    Sample.onlyNull 0 = Normal [].
Proof.
  exact (nothing_kept_gives_empty Sample.StringToNumber Sample.ObjectToNumber
           Sample.randomUUID Sample.onlyNull 0 eq_refl eq_refl).
Defined.


Lemma parse_concatenation_witness :
  parseUploadedAzureJson Sample.StringToNumber Sample.ObjectToNumber Sample.randomUUID
    (Sample.results [Sample.firstResult; Sample.secondResult]) 0
  = Normal [Sample.parsedWord 0 1; Sample.parsedWord 1 2].
Proof.
  exact (parse_concatenation Sample.StringToNumber Sample.ObjectToNumber Sample.randomUUID
           (Sample.results [Sample.firstResult; Sample.secondResult])
           (Sample.results [Sample.firstResult]) (Sample.results [Sample.secondResult])
           [Sample.firstResult] [Sample.secondResult] 0
           [Sample.parsedWord 0 1] [Sample.parsedWord 1 2]
           eq_refl eq_refl eq_refl eq_refl eq_refl).
Defined.

(** ** polygonsToRects and the parser *)

Lemma mapWithIndex_Forall2 {A B} (f : A -> nat -> completion B) (R : A -> B -> Prop) items :
  (forall it idx b, f it idx = Normal b -> R it b) ->
  forall idx out, mapWithIndex f items idx = Normal out -> Forall2 R items out.
Proof.
  intros Hf. induction items as [| it rest IH]; intros idx out; cbn [mapWithIndex].
  - intros [= <-]. constructor.
  - destruct (f it idx) as [b | e] eqn:Hb; cbn [bind]; [| discriminate].
    destruct (mapWithIndex f rest (S idx)) as [bs | e] eqn:Hrest; cbn [bind]; [| discriminate].
    intros [= <-]. constructor; [eapply Hf; eassumption | eapply IH; eassumption].
Qed.

Section PolygonsAndParser.

Variable StringToNumber : string -> number.
Variable ObjectToNumber : value -> completion number.
Variable NumberToString : number -> string.
Variable randomUUID : nat -> string.

Local Abbreviation parse :=
  (parseUploadedAzureJson StringToNumber ObjectToNumber randomUUID).
Local Abbreviation coerced := (coerceEntries StringToNumber ObjectToNumber).

Lemma polygonsToRects_throws items unit0 it :
  In it items -> malformed it ->
  polygonsToRects NumberToString items unit0 = Throw MalformedPolygon.
Proof.
  intros Hin Hbad. unfold polygonsToRects.
  apply mapWithIndex_throws with (it := it); [exact Hin | |].
  - intros idx. unfold malformed in Hbad.
    destruct (Item.polygon it) as [p |]; [| reflexivity].
    apply Nat.ltb_lt in Hbad. now rewrite Hbad.
  - intros it' idx e'.
    destruct (Item.polygon it') as [p |]; [| now intros [= <-]].
    destruct (List.length p <? 8)%nat; [now intros [= <-] | discriminate].
Qed.

(** X13. [polygonsToRects] returns exactly when no item is malformed, and
    then gives one rectangle for each item, in order: on the page of the
    item, in the unit asked for, with the label of the item, and with x and
    y below and x- and y-maximum above every corner when the corners are
    numbers. *)
Theorem polygonsToRects_returns_iff_well_formed items unit0 :
  ((exists out, polygonsToRects NumberToString items unit0 = Normal out)
   <-> Forall (fun it => ~ malformed it) items)
  /\ forall out,
       polygonsToRects NumberToString items unit0 = Normal out ->
       Forall2 (fun it r =>
           page r = VNum (Item.page it)
           /\ unit r = unit0
           /\ label r = ofOptional (Item.label it)
           /\ exists x0 y0 x1 y1 x2 y2 x3 y3 rest,
                Item.polygon it = Some (x0 :: y0 :: x1 :: y1 :: x2 :: y2 :: x3 :: y3 :: rest)
                /\ x r = Math_min [x0; x1; x2; x3]
                /\ y r = Math_min [y0; y1; y2; y3]
                /\ width r = Math_max [x0; x1; x2; x3] - Math_min [x0; x1; x2; x3]
                /\ height r = Math_max [y0; y1; y2; y3] - Math_min [y0; y1; y2; y3]
                /\ (Forall aNumber [x0; x1; x2; x3] ->
                    Forall (fun a => (x r <=? a) = true) [x0; x1; x2; x3])
                /\ (Forall aNumber [y0; y1; y2; y3] ->
                    Forall (fun a => (y r <=? a) = true) [y0; y1; y2; y3]))
         items out.
Proof.
  split.
  - split.
    + intros [out Hout]. apply Forall_forall. intros it Hin Hbad.
      rewrite (polygonsToRects_throws items unit0 it Hin Hbad) in Hout. discriminate.
    + intros Hgood. destruct (polygonsToRects_accepts NumberToString items unit0 Hgood)
        as (out & Hout & _). now exists out.
  - intros out. unfold polygonsToRects. apply mapWithIndex_Forall2.
    intros it idx r. destruct (Item.polygon it) as [p |]; [| discriminate].
    destruct (List.length p <? 8)%nat eqn:Hlen; [discriminate |].
    apply Nat.ltb_ge in Hlen.
    do 8 (destruct p as [| ? p]; [cbn in Hlen; lia |]).
    intros [= <-]. cbn [page unit label x y width height nth].
    do 3 (split; [reflexivity |]).
    do 9 eexists. split; [reflexivity |]. do 4 (split; [reflexivity |]).
    split; intros Hnum; (destruct (Math_min_least _ Hnum) as [_ Hle]; [discriminate | exact Hle]).
Qed.

(** X14. The two paths agree on full polygons: for a word whose polygon
    is an array of eight numbers or more, the rectangle the parser emits has
    the x, y, width, height and unit that [polygonsToRects] gives for the
    same numbers in inches. *)
Theorem parser_agrees_with_polygonsToRects raw uuids out :
  parse raw uuids = Normal out ->
  Forall2 (fun mw r =>
      forall ps pg lbl,
        getOpt (snd mw) "polygon" = VArr (map VNum ps) ->
        (8 <= List.length ps)%nat ->
        exists r',
          polygonsToRects NumberToString
            [ {| Item.page := pg; Item.polygon := Some ps; Item.label := lbl |} ] inch
            = Normal [r']
          /\ x r' = x r /\ y r' = y r /\ width r' = width r /\ height r' = height r
          /\ unit r' = unit r)
    (acceptedIn raw) out.
Proof.
  intros Hout. apply (Forall2_weaken _ _ _ _ (parse_emits _ _ _ _ _ _ Hout)).
  intros [m w] r _ Hr ps pg lbl Hp Hlen. unfold emitsFor, emits in Hr. cbn [fst snd] in *.
  destruct Hr as (xs & ys & Hxs & Hys & _ & Hx & Hy & Hwidth & Hheight & Hunit & _).
  do 8 (destruct ps as [| ? ps]; [cbn in Hlen; lia |]).
  cbn [map] in Hp.
  destruct (coerced_numbers StringToNumber ObjectToNumber _ _ _ _ _ _ _ _ _ _ Hp)
    as [Hxs' Hys'].
  rewrite Hxs' in Hxs. rewrite Hys' in Hys. injection Hxs as <-. injection Hys as <-.
  eexists. split; [reflexivity |]. cbn [x y width height unit nth].
  now rewrite Hx, Hy, Hwidth, Hheight, Hunit.
Qed.

End PolygonsAndParser.

Lemma polygonsToRects_returns_iff_well_formed_witness :
  exists out, polygonsToRects Sample.NumberToString [Sample.goodItem] inch = Normal out.
Proof.
  apply (proj1 (polygonsToRects_returns_iff_well_formed Sample.NumberToString
                  [Sample.goodItem] inch)).
  constructor; [| constructor]. unfold malformed. cbn. lia.
Defined.

Lemma parser_agrees_with_polygonsToRects_witness :
  exists out,
    parseUploadedAzureJson Sample.StringToNumber Sample.ObjectToNumber Sample.randomUUID
      Sample.oneWord 0 = Normal out
    /\ Forall2 (fun mw r =>
         forall ps pg lbl,
           getOpt (snd mw) "polygon" = VArr (map VNum ps) ->
           (8 <= List.length ps)%nat ->
           exists r',
             polygonsToRects Sample.NumberToString
               [ {| Item.page := pg; Item.polygon := Some ps; Item.label := lbl |} ] inch
               = Normal [r']
             /\ x r' = x r /\ y r' = y r /\ width r' = width r /\ height r' = height r
             /\ unit r' = unit r)
       (acceptedIn Sample.oneWord) out.
Proof.
  eexists. split; [reflexivity |].
  exact (parser_agrees_with_polygonsToRects Sample.StringToNumber Sample.ObjectToNumber
           Sample.NumberToString Sample.randomUUID Sample.oneWord 0 _ eq_refl).
Defined.

(** ** Extents *)

Lemma nan_not_below a b : is_nan a = true -> (a <? b) = false.
Proof.
  intros Ha. destruct (a <? b) eqn:H; [| reflexivity].
  apply ltb_not_nan in H as [H _]. congruence.
Qed.

Lemma numbers_or_nan l :
  Forall aNumber l \/ Exists (fun a => is_nan a = true) l.
Proof.
  induction l as [| a l [IH | IH]].
  - left. constructor.
  - destruct (is_nan a) eqn:Ha.
    + right. now apply Exists_cons_hd.
    + left. now constructor.
  - right. now apply Exists_cons_tl.
Qed.

(** The extent of a set of coordinates is never below zero. *)
Lemma extent_not_negative l : l <> [] -> (Math_max l - Math_min l <? 0) = false.
Proof.
  intros Hne. destruct (numbers_or_nan l) as [Hnum | Hnan].
  - destruct (Math_min_least l Hnum Hne) as [Hin Hmin].
    destruct (Math_max_greatest l Hnum Hne) as [_ Hmax].
    apply FloatSub.sub_not_negative.
    rewrite Forall_forall in Hmax. now apply Hmax.
  - apply nan_not_below, sub_is_nan. left. now rewrite (Math_max_nan l Hnan).
Qed.

Lemma sequence_length {A} (cs : list (completion A)) l :
  sequence cs = Normal l -> List.length l = List.length cs.
Proof.
  revert l. induction cs as [| c cs IH]; intros l; cbn [sequence].
  - now intros [= <-].
  - destruct c as [a | e]; cbn [bind]; [| discriminate].
    destruct (sequence cs) as [l' | e]; cbn [bind]; [| discriminate].
    intros [= <-]. cbn [List.length]. f_equal. now apply IH.
Qed.

Section Extents.

Variable StringToNumber : string -> number.
Variable ObjectToNumber : value -> completion number.
Variable NumberToString : number -> string.
Variable randomUUID : nat -> string.

Local Abbreviation parse :=
  (parseUploadedAzureJson StringToNumber ObjectToNumber randomUUID).
Local Abbreviation coerced := (coerceEntries StringToNumber ObjectToNumber).

Lemma coerced_not_empty w i0 i1 i2 i3 ns :
  coerced w [i0; i1; i2; i3] = Normal ns -> ns <> [].
Proof.
  unfold coerceEntries. intros H. apply sequence_length in H.
  rewrite length_map in H. now destruct ns.
Qed.

(** X15. No rectangle built from a polygon has a negative width or
    height, whatever the order of the corners and whatever the entries are
    coerced to: this holds for every rectangle the parser returns and for
    every rectangle [polygonsToRects] returns. *)
Theorem built_extents_are_never_negative raw uuids items unit0 out out' :
  parse raw uuids = Normal out ->
  polygonsToRects NumberToString items unit0 = Normal out' ->
  Forall (fun r => (width r <? 0) = false /\ (height r <? 0) = false) out
  /\ Forall (fun r => (width r <? 0) = false /\ (height r <? 0) = false) out'.
Proof.
  intros Hout Hout'. split.
  - pose proof (parse_emits _ _ _ _ _ _ Hout) as Hemits.
    clear Hout. induction Hemits as [| mw r kept out0 Hr _ IH]; constructor; [| exact IH].
    unfold emitsFor, emits in Hr.
    destruct Hr as (xs & ys & Hxs & Hys & _ & _ & _ & -> & -> & _).
    split; apply extent_not_negative; eapply coerced_not_empty; eassumption.
  - unfold polygonsToRects in Hout'.
    apply (mapWithIndex_Forall2 _
      (fun (_ : Item.t) r => (width r <? 0) = false /\ (height r <? 0) = false))
      in Hout'.
    + induction Hout'; constructor; assumption.
    + intros it idx r. destruct (Item.polygon it) as [p |]; [| discriminate].
      destruct (List.length p <? 8)%nat; [discriminate |].
      intros [= <-]. cbn [width height].
      split; apply extent_not_negative; discriminate.
Qed.

End Extents.

Lemma built_extents_are_never_negative_witness :
  exists out out',
    parseUploadedAzureJson Sample.StringToNumber Sample.ObjectToNumber Sample.randomUUID
      Sample.shortPolygon 0 = Normal out
    /\ polygonsToRects Sample.NumberToString [Sample.goodItem] pdf = Normal out'
    /\ Forall (fun r => (width r <? 0) = false /\ (height r <? 0) = false) out
    /\ Forall (fun r => (width r <? 0) = false /\ (height r <? 0) = false) out'.
Proof.
  do 2 eexists. split; [reflexivity |]. split; [reflexivity |].
  exact (built_extents_are_never_negative Sample.StringToNumber Sample.ObjectToNumber
           Sample.NumberToString Sample.randomUUID Sample.shortPolygon 0
           [Sample.goodItem] pdf _ _ eq_refl eq_refl).
Defined.

(** ** The corners of the viewport box *)

(** X16. [rectToViewport] does not depend on which of the two corners the
    viewport maps first: a viewport that sends the top-left corner where
    another sends the bottom-right one, and the bottom-right corner where the
    other sends the top-left one, gives the same box. *)
Theorem viewport_corners_can_be_swapped rect v v' pageSizePts box :
  rectToPdfPoints rect pageSizePts = Normal box ->
  convertToViewportPoint v' (left box) (top box)
    = convertToViewportPoint v (right box) (bottom box) ->
  convertToViewportPoint v' (right box) (bottom box)
    = convertToViewportPoint v (left box) (top box) ->
  rectToViewport rect v' pageSizePts = rectToViewport rect v pageSizePts.
Proof.
  intros Hbox H1 H2.
  destruct (convertToViewportPoint v (left box) (top box)) as [vx1 vy1] eqn:Hv1.
  destruct (convertToViewportPoint v (right box) (bottom box)) as [vx2 vy2] eqn:Hv2.
  rewrite (rectToViewport_unfold rect v pageSizePts box vx1 vy1 vx2 vy2 Hbox Hv1 Hv2).
  rewrite (rectToViewport_unfold rect v' pageSizePts box vx2 vy2 vx1 vy1 Hbox H1 H2).
  unfold Math_abs.
  now rewrite (FloatSwap.Math_min_swap vx2 vx1), (FloatSwap.Math_min_swap vy2 vy1),
    (FloatSwap.abs_sub_swap vx1 vx2), (FloatSwap.abs_sub_swap vy1 vy2).
Qed.

Lemma viewport_corners_can_be_swapped_witness :
  rectToViewport (Sample.rectOf pdf 10 20 30 40) Sample.swappedViewport Sample.letter
  = rectToViewport (Sample.rectOf pdf 10 20 30 40) Sample.identityViewport Sample.letter.
Proof.
  exact (viewport_corners_can_be_swapped (Sample.rectOf pdf 10 20 30 40)
           Sample.identityViewport Sample.swappedViewport Sample.letter _
           eq_refl eq_refl eq_refl).
Defined.

(** ** The handlers of the editor *)

Lemma Forall2_weaken_in {A B} (R Q : A -> B -> Prop) l1 l2 :
  Forall2 R l1 l2 ->
  (forall a b, In a l1 -> In b l2 -> R a b -> Q a b) ->
  Forall2 Q l1 l2.
Proof.
  induction 1 as [| a b l1 l2 HR _ IH]; intros HQ; constructor.
  - apply HQ; [now left | now left | exact HR].
  - apply IH. intros a' b' Hin Hin'. apply HQ; now right.
Qed.

Section EditorFacts.

Variable JSONparse : string -> completion value.
Variable StringToNumber : string -> number.
Variable ObjectToNumber : value -> completion number.
Variable randomUUID : nat -> string.

Local Abbreviation parse :=
  (parseUploadedAzureJson StringToNumber ObjectToNumber randomUUID).
Local Abbreviation upload :=
  (handleJsonUpload JSONparse StringToNumber ObjectToNumber randomUUID).
Local Abbreviation import :=
  (importFromJson JSONparse StringToNumber ObjectToNumber randomUUID).
Local Abbreviation add := (handleManualAdd randomUUID).

(** X17. Which page a parsed word is drawn on: the rectangle of a kept
    word is among the rectangles of page [p] exactly when the page of the
    word, else of its group, else of the first word of the group, else 1, is
    the number [p]; with no page given anywhere it is drawn on page 1. *)
Theorem parsed_word_is_drawn_on_its_page raw uuids out :
  parse raw uuids = Normal out ->
  Forall2 (fun mw r =>
      (forall p,
         In r (pageRects p out) <->
         strictEqualsNumber
           (getOpt (snd mw) "page" ?? getOpt (fst mw) "page"
            ?? getOpt (indexOpt (getOpt (fst mw) "words") 0) "page" ?? VNum 1) p = true)
      /\ (isNullish (getOpt (snd mw) "page") = true ->
          isNullish (getOpt (fst mw) "page") = true ->
          isNullish (getOpt (indexOpt (getOpt (fst mw) "words") 0) "page") = true ->
          In r (pageRects 1 out)))
    (acceptedIn raw) out.
Proof.
  intros Hout. apply (Forall2_weaken_in _ _ _ _ (parse_emits _ _ _ _ _ _ Hout)).
  intros [m w] r Hkept Hin Hr. unfold emitsFor, emits in Hr. cbn [fst snd] in *.
  destruct Hr as (xs & ys & Hxs & Hys & Hpage & Hrest).
  apply filter_In in Hkept as [_ Hw]. cbn [fst snd] in Hw.
  destruct (hasArrayPolygon_object _ Hw) as (props & elems & -> & _).
  assert (Hp : page r = getOpt (VObj props) "page" ?? getOpt m "page"
                 ?? getOpt (indexOpt (getOpt m "words") 0) "page" ?? VNum 1).
  { rewrite Hpage. unfold groupPage. now rewrite !coalesce_assoc. }
  assert (Hiff : forall p, In r (pageRects p out) <->
                   strictEqualsNumber (page r) p = true).
  { intros p. unfold pageRects. rewrite filter_In. tauto. }
  split.
  - intros p. now rewrite Hiff, Hp.
  - intros H1 H2 H3. apply Hiff. rewrite Hp. unfold coalesce.
    rewrite H1, H2, H3. reflexivity.
Qed.

(** X18. Uploading a text that [JSON.parse] reads as a well-shaped document
    keeps the stored rectangles in place and appends one rectangle for each
    word whose polygon is an array, in the order of the document; the unit
    becomes inch and nothing is reported.  The button "Import from JSON"
    does the same with the pasted text. *)
Theorem import_appends_the_parsed_rectangles text raw uuids st :
  JSONparse text = Normal raw ->
  wellShaped raw = true ->
  (exists autoRects,
     stRects (upload text uuids st) = stRects st ++ autoRects
     /\ Forall2 (emitsFor StringToNumber ObjectToNumber) (acceptedIn raw) autoRects
     /\ stUnit (upload text uuids st) = inch
     /\ stAlerts (upload text uuids st) = stAlerts st
     /\ stConsole (upload text uuids st) = stConsole st)
  /\ (stJsonText st = text ->
      stRects (import uuids st) = stRects (upload text uuids st)
      /\ stUnit (import uuids st) = inch
      /\ stAlerts (import uuids st) = stAlerts st).
Proof.
  intros Htext Hshape.
  destruct (parse_returns StringToNumber ObjectToNumber randomUUID raw uuids Hshape)
    as [out Hout].
  assert (Hrun : parseText JSONparse StringToNumber ObjectToNumber randomUUID text uuids
                 = Normal out).
  { unfold parseText. rewrite Htext. exact Hout. }
  unfold handleJsonUpload, importFromJson. rewrite Hrun. cbn. split.
  - exists out. repeat split. exact (parse_emits _ _ _ _ _ _ Hout).
  - intros ->. rewrite Hrun. cbn. repeat split.
Qed.

(** X19. An import is all or nothing: when [JSON.parse] throws, or the
    document has a node that cannot be iterated (wherever it is, and
    whatever words come before it), no rectangle is added, the unit is kept,
    and one message is shown: "Could not parse JSON. Paste or shape it per
    the sample." for an upload, "Invalid JSON" for the pasted text. *)
Theorem failed_import_adds_nothing text uuids st :
  (exists e, JSONparse text = Throw e)
  \/ (exists raw, JSONparse text = Normal raw /\ nodesIterable raw = false) ->
  (stRects (upload text uuids st) = stRects st
   /\ stUnit (upload text uuids st) = stUnit st
   /\ stAlerts (upload text uuids st) =
        stAlerts st ++ ["Could not parse JSON. Paste or shape it per the sample."%string])
  /\ (stJsonText st = text ->
      stRects (import uuids st) = stRects st
      /\ stUnit (import uuids st) = stUnit st
      /\ stAlerts (import uuids st) = stAlerts st ++ ["Invalid JSON"%string]).
Proof.
  intros Hbad.
  assert (Hrun : exists e, parseText JSONparse StringToNumber ObjectToNumber randomUUID
                             text uuids = Throw e).
  { unfold parseText. destruct Hbad as [[e ->] | (raw & -> & Hnodes)]; cbn [bind].
    - now exists e.
    - now apply bad_node_throws. }
  destruct Hrun as [e Hrun].
  unfold handleJsonUpload, importFromJson. rewrite Hrun. cbn. split; [repeat split |].
  intros ->. rewrite Hrun. cbn. repeat split.
Qed.

(** X20. [handleManualAdd] appends one rectangle, on page 1 and in the
    unit selected, and keeps the others in place; when its identifier is not
    in use, removing it gives back the rectangles there were. *)
Theorem manual_add_then_remove uuids st :
  ~ In (randomUUID uuids) (map id (stRects st)) ->
  stRects (add uuids st) = stRects st ++ [manualRect randomUUID (stUnit st) uuids]
  /\ In (manualRect randomUUID (stUnit st) uuids) (pageRects 1 (stRects (add uuids st)))
  /\ removeRect (randomUUID uuids) (stRects (add uuids st)) = stRects st.
Proof.
  intros Hfresh. unfold handleManualAdd. cbn [stRects]. split; [reflexivity |]. split.
  - unfold pageRects. apply filter_In. split; [| reflexivity].
    apply in_or_app. right. now left.
  - unfold removeRect. rewrite filter_app. cbn [filter manualRect id].
    rewrite String.eqb_refl. cbn [negb]. rewrite app_nil_r.
    apply forallb_filter_id. apply forallb_forall. intros r Hr.
    apply negb_true_iff, String.eqb_neq. intros Hid. apply Hfresh.
    rewrite <- Hid. now apply in_map.
Qed.

End EditorFacts.

Lemma parsed_word_is_drawn_on_its_page_witness :
  exists out,
    parseUploadedAzureJson Sample.StringToNumber Sample.ObjectToNumber Sample.randomUUID
      Sample.pageOfFirstWord 0 = Normal out
    /\ Forall2 (fun mw r =>
         (forall p,
            In r (pageRects p out) <->
            strictEqualsNumber
              (getOpt (snd mw) "page" ?? getOpt (fst mw) "page"
               ?? getOpt (indexOpt (getOpt (fst mw) "words") 0) "page" ?? VNum 1) p = true)
         /\ (isNullish (getOpt (snd mw) "page") = true ->
             isNullish (getOpt (fst mw) "page") = true ->
             isNullish (getOpt (indexOpt (getOpt (fst mw) "words") 0) "page") = true ->
             In r (pageRects 1 out)))
       (acceptedIn Sample.pageOfFirstWord) out.
Proof.
  eexists. split; [reflexivity |].
  exact (parsed_word_is_drawn_on_its_page Sample.StringToNumber Sample.ObjectToNumber
           Sample.randomUUID Sample.pageOfFirstWord 0 _ eq_refl).
Defined.

Lemma import_appends_the_parsed_rectangles_witness :
  stRects (importFromJson Sample.JSONparse Sample.StringToNumber Sample.ObjectToNumber
             Sample.randomUUID 1 Sample.editor)
    = stRects (handleJsonUpload Sample.JSONparse Sample.StringToNumber Sample.ObjectToNumber
                 Sample.randomUUID "one" 1 Sample.editor)
  /\ stUnit (importFromJson Sample.JSONparse Sample.StringToNumber Sample.ObjectToNumber
               Sample.randomUUID 1 Sample.editor) = inch
  /\ stAlerts (importFromJson Sample.JSONparse Sample.StringToNumber Sample.ObjectToNumber
                 Sample.randomUUID 1 Sample.editor) = [].
Proof.
  exact (proj2 (import_appends_the_parsed_rectangles Sample.JSONparse Sample.StringToNumber
                  Sample.ObjectToNumber Sample.randomUUID "one" Sample.oneWord 1 Sample.editor
                  eq_refl eq_refl) eq_refl).
Defined.

Lemma failed_import_adds_nothing_witness :
  stRects (handleJsonUpload Sample.JSONparse Sample.StringToNumber Sample.ObjectToNumber
             Sample.randomUUID "bad" 1 Sample.editor) = [Sample.stored]
  /\ stUnit (handleJsonUpload Sample.JSONparse Sample.StringToNumber Sample.ObjectToNumber
               Sample.randomUUID "bad" 1 Sample.editor) = ratio
  /\ stAlerts (handleJsonUpload Sample.JSONparse Sample.StringToNumber Sample.ObjectToNumber
                 Sample.randomUUID "bad" 1 Sample.editor)
     = ["Could not parse JSON. Paste or shape it per the sample."%string].
Proof.
  exact (proj1 (failed_import_adds_nothing Sample.JSONparse Sample.StringToNumber
                  Sample.ObjectToNumber Sample.randomUUID "bad" 1 Sample.editor
                  (or_intror (ex_intro _ Sample.notIterable (conj eq_refl eq_refl))))).
Defined.

Lemma manual_add_then_remove_witness :
  removeRect (Sample.randomUUID 1)
    (stRects (handleManualAdd Sample.randomUUID 1 Sample.editor)) = [Sample.stored].
Proof.
  apply (manual_add_then_remove Sample.randomUUID 1 Sample.editor).
  cbn. intros [H | []]. discriminate H.
Defined.

(** ** Identifiers *)

Lemma removeRect_ids i prev :
  map id (removeRect i prev) = filter (fun j => negb (String.eqb j i)) (map id prev).
Proof. unfold removeRect. now rewrite filter_map_swap. Qed.

Lemma minted_later randomUUID u u' rects0 :
  (u <= u')%nat -> minted randomUUID u rects0 -> minted randomUUID u' rects0.
Proof.
  intros Hle [Hnodup Hold]. split; [exact Hnodup |].
  intros i Hi. destruct (Hold i Hi) as (k & Hk & ->). exists k. split; [lia | reflexivity].
Qed.

Lemma minted_append randomUUID u rects0 added :
  (forall j k, randomUUID j = randomUUID k -> j = k) ->
  minted randomUUID u rects0 ->
  map id added = map randomUUID (seq u (List.length added)) ->
  minted randomUUID (u + List.length added) (rects0 ++ added).
Proof.
  intros Hinj [Hnodup Hold] Hids. split.
  - rewrite map_app. apply NoDup_app; [exact Hnodup | |].
    + rewrite Hids. apply Finite.Injective_map_NoDup; [exact Hinj | apply seq_NoDup].
    + intros i Hi Hi'. destruct (Hold i Hi) as (k & Hk & ->).
      rewrite Hids in Hi'. apply in_map_iff in Hi' as (k' & Heq & Hk').
      apply Hinj in Heq. apply in_seq in Hk'. lia.
  - intros i. rewrite map_app, in_app_iff. intros [Hi | Hi].
    + destruct (Hold i Hi) as (k & Hk & ->). exists k. split; [lia | reflexivity].
    + rewrite Hids in Hi. apply in_map_iff in Hi as (k & <- & Hk).
      apply in_seq in Hk. exists k. split; [lia | reflexivity].
Qed.

Section Identifiers.

Variable JSONparse : string -> completion value.
Variable StringToNumber : string -> number.
Variable ObjectToNumber : value -> completion number.
Variable randomUUID : nat -> string.

Local Abbreviation upload :=
  (handleJsonUpload JSONparse StringToNumber ObjectToNumber randomUUID).
Local Abbreviation add := (handleManualAdd randomUUID).

(** X21. The identifiers in the store stay distinct: if the generator never
    repeats itself and the stored identifiers are distinct and were handed
    out before, they are so again after [handleManualAdd], after an upload
    (whether it succeeds or fails), after any edit of the overlay editor
    and after [removeRect]. *)
Theorem identifiers_stay_distinct uuids st :
  (forall j k, randomUUID j = randomUUID k -> j = k) ->
  minted randomUUID uuids (stRects st) ->
  minted randomUUID (S uuids) (stRects (add uuids st))
  /\ (forall text,
        exists n,
          List.length (stRects (upload text uuids st)) = (List.length (stRects st) + n)%nat
          /\ minted randomUUID (uuids + n) (stRects (upload text uuids st)))
  /\ (forall i e, minted randomUUID uuids (updateRect i (patchOf e) (stRects st)))
  /\ (forall i, minted randomUUID uuids (removeRect i (stRects st))).
Proof.
  intros Hinj Hminted. split; [| split; [| split]].
  - unfold handleManualAdd. cbn [stRects]. rewrite <- Nat.add_1_r.
    apply (minted_append randomUUID uuids (stRects st) [manualRect randomUUID (stUnit st) uuids]);
      auto.
  - intros text. unfold handleJsonUpload, parseText.
    destruct (JSONparse text) as [raw | e]; cbn [bind].
    + destruct (parseUploadedAzureJson _ _ _ raw uuids) as [out | e] eqn:Hout; cbn [stRects].
      * exists (List.length out). split; [apply length_app |].
        apply minted_append; auto.
        exact (parse_ids _ _ _ _ _ _ Hout).
      * exists 0%nat. rewrite !Nat.add_0_r. split; [reflexivity | exact Hminted].
    + exists 0%nat. rewrite !Nat.add_0_r. split; [reflexivity | exact Hminted].
  - intros i e. unfold minted. rewrite updateRect_ids; [exact Hminted | left; now destruct e].
  - intros i. unfold minted. rewrite removeRect_ids. split.
    + apply NoDup_filter, Hminted.
    + intros j Hj. apply filter_In in Hj as [Hj _]. now apply Hminted.
Qed.

End Identifiers.

Lemma indexKey_injective j k : indexKey j = indexKey k -> j = k.
Proof.
  assert (Hdigits : forall n, Nat.to_uint n <> Decimal.Nil).
  { intros n. pose proof (DecimalNat.Unsigned.to_of (Nat.to_uint n)) as E.
    rewrite DecimalNat.Unsigned.of_to in E. rewrite E. apply DecimalFacts.unorm_nonnil. }
  unfold indexKey. intros H. apply (f_equal NilZero.uint_of_string) in H.
  rewrite !NilZero.usu in H by apply Hdigits. injection H as H.
  now apply DecimalNat.Unsigned.to_uint_inj.
Qed.

Lemma Sample_randomUUID_injective j k :
  Sample.randomUUID j = Sample.randomUUID k -> j = k.
Proof.
  unfold Sample.randomUUID. intros H. apply indexKey_injective.
  cbn in H. congruence.
Qed.

Lemma identifiers_stay_distinct_witness :
  minted Sample.randomUUID 2 (stRects (handleManualAdd Sample.randomUUID 1 Sample.editor)).
Proof.
  apply (identifiers_stay_distinct Sample.JSONparse Sample.StringToNumber
           Sample.ObjectToNumber Sample.randomUUID 1 Sample.editor).
  - exact Sample_randomUUID_injective.
  - split.
    + constructor; [intros [] | constructor].
    + intros i [<- | []]. exists 0%nat. split; [lia | reflexivity].
Defined.

(** X22. When the stored identifiers are distinct, an update rewrites the
    one rectangle it addresses and a removal removes that one rectangle;
    every other rectangle stays where it is. *)
Theorem distinct_ids_address_one_rectangle r patch prev :
  NoDup (map id prev) ->
  In r prev ->
  exists before after,
    prev = before ++ r :: after
    /\ updateRect (id r) patch prev = before ++ spread r patch :: after
    /\ removeRect (id r) prev = before ++ after.
Proof.
  intros Hnodup Hin. destruct (in_split _ _ Hin) as (before & after & ->).
  exists before, after. split; [reflexivity |].
  rewrite map_app in Hnodup. cbn [map] in Hnodup.
  pose proof (NoDup_remove_2 _ _ _ Hnodup) as Hout.
  rewrite in_app_iff in Hout.
  assert (Hb : ~ In (id r) (map id before)) by tauto.
  assert (Ha : ~ In (id r) (map id after)) by tauto.
  split.
  - unfold updateRect. rewrite map_app. cbn [map]. rewrite String.eqb_refl.
    fold (updateRect (id r) patch before) (updateRect (id r) patch after).
    now rewrite !updateRect_no_match.
  - unfold removeRect. rewrite filter_app. cbn [filter]. rewrite String.eqb_refl. cbn [negb].
    fold (removeRect (id r) before) (removeRect (id r) after).
    now rewrite !removeRect_no_match.
Qed.

Lemma distinct_ids_address_one_rectangle_witness :
  exists before after,
    [Sample.rectOf inch 1 1 2 1; Sample.stored] = before ++ Sample.stored :: after
    /\ updateRect "uuid-0" (patchOf (EditX 3)) [Sample.rectOf inch 1 1 2 1; Sample.stored]
       = before ++ spread Sample.stored (patchOf (EditX 3)) :: after
    /\ removeRect "uuid-0" [Sample.rectOf inch 1 1 2 1; Sample.stored] = before ++ after.
Proof.
  apply (distinct_ids_address_one_rectangle Sample.stored (patchOf (EditX 3))
           [Sample.rectOf inch 1 1 2 1; Sample.stored]).
  - constructor; [| constructor; [intros [] | constructor]].
    cbn. intros [H | []]. discriminate H.
  - right. left. reflexivity.
Defined.

(** ** The slider *)

(** A finite number less itself is [+0]. *)
Lemma sub_diag a : is_finite a = true -> Prim2SF (a - a) = S754_zero false.
Proof.
  rewrite is_finite_Prim2SF, sub_spec. unfold SF64sub.
  destruct (Prim2SF a) as [[] | s | | s m e]; cbn [SFfinite SFsub]; try discriminate;
    try reflexivity.
  intros _. now rewrite Z.sub_diag.
Qed.

(** X23. The filled share of the track of the slider when the value is at
    the minimum: it is zero for every range that is a number other than
    zero, and NaN, not a percentage, when the range is empty ([max = min]);
    with no value at all it is NaN too. *)
Theorem slider_fill_at_the_minimum (value0 : list number) (min max : number) :
  is_finite min = true ->
  nth 0 value0 nan = min ->
  (is_nan (max - min) = false -> is_zero (max - min) = false ->
   is_zero (fillPercent value0 min max) = true)
  /\ (max = min -> is_nan (fillPercent value0 min max) = true)
  /\ is_nan (fillPercent [] min max) = true.
Proof.
  intros Hmin Hvalue. unfold fillPercent. rewrite Hvalue.
  assert (H100 : Prim2SF 100 = S754_finite false 7036874417766400 (-46)) by reflexivity.
  split; [| split].
  - rewrite is_nan_false, !FloatSwap.is_zero_Prim2SF, mul_spec, div_spec, (sub_diag min Hmin), H100.
    destruct (Prim2SF (max - min)) as [s | s | | s m e]; cbn; congruence.
  - intros ->. rewrite is_nan_Prim2SF, mul_spec, div_spec, (sub_diag min Hmin). reflexivity.
  - cbn [nth]. rewrite is_nan_Prim2SF, mul_spec, div_spec, sub_spec.
    change (Prim2SF nan) with S754_nan. reflexivity.
Qed.

Lemma slider_fill_at_the_minimum_witness :
  is_zero (fillPercent [0.5] 0.5 3) = true
  /\ is_nan (fillPercent [2] 2 2) = true.
Proof.
  split.
  - apply (slider_fill_at_the_minimum [0.5] 0.5 3); reflexivity.
  - apply (slider_fill_at_the_minimum [2] 2 2); reflexivity.
Defined.
